(** * Crypto treasury tracker: normalisation, PnL, merge, FX and formatting

    A shallow embedding of [app.py].  Numbers are IEEE-754 binary64,
    embedded as Rocq's primitive [float]: a JSON float is itself, and a JSON
    integer below 2^52 in magnitude is the float of the same value
    ([read_number]); on such integers the integer columns pandas keeps and
    Python's integer division give the numbers that binary64 arithmetic gives.
    Larger integers have no reading: pandas keeps them in int64, uint64 or
    object columns, whose arithmetic wraps around or is exact, and the model
    says nothing about them.  A key that is missing from a JSON object is
    [None]; a key that is present carries a number or a string (JSON [null]
    is not modelled).  Python exceptions are the [Raise] case of [result].
    A pandas [DataFrame] is the list of its rows. *)

From Stdlib Require Import ZArith Lia Bool List String Ascii Floats.
From Stdlib Require Import DecimalString DecimalPos DecimalN.
From Stdlib Require Import Permutation Sorted.
Import ListNotations.

Open Scope string_scope.
Open Scope float_scope.

(* ================================================================= *)
(** * Python values and builtins *)

Module Py.

Inductive exn : Type := ZeroDivisionError.

Inductive result (A : Type) : Type :=
| Ok (a : A)
| Raise (e : exn).
Arguments Ok {A} a.
Arguments Raise {A} e.

Definition bind {A B} (c : result A) (k : A -> result B) : result B :=
  match c with
  | Ok a => k a
  | Raise e => Raise e
  end.

Fixpoint mapM {A B} (f : A -> result B) (l : list A) : result (list B) :=
  match l with
  | [] => Ok []
  | x :: l' =>
      bind (f x) (fun y => bind (mapM f l') (fun ys => Ok (y :: ys)))
  end.

(** [d.get(k, default)] on a field that may be missing. *)
Definition get {A} (field : option A) (default : A) : A :=
  match field with
  | Some v => v
  | None => default
  end.

(** A dict with string keys, as the list of its items. *)
Definition dict (V : Type) : Type := list (string * V).

Fixpoint lookup {V} (d : dict V) (k : string) : option V :=
  match d with
  | [] => None
  | (k', v) :: d' => if String.eqb k' k then Some v else lookup d' k
  end.

Definition dict_get {V} (d : dict V) (k : string) (default : V) : V :=
  get (lookup d k) default.

(** [bool(x)] of a float: every value but the two zeros (NaN is truthy). *)
Definition truthy (x : float) : bool := negb (x =? 0).

(** [x != y]. *)
Definition ne (x y : float) : bool := negb (x =? y).


(** [x / y]: Python raises on a zero divisor. *)
Definition truediv (x y : float) : result float :=
  if y =? 0 then Raise ZeroDivisionError else Ok (x / y).

(** [min(a, b)] and [max(a, b)]: the first argument unless the second
    compares strictly beyond it. *)
Definition min (a b : float) : float := if b <? a then b else a.
Definition max (a b : float) : float := if a <? b then b else a.


(** ** [format(x, ".2f")] *)

Definition sign_str (s : bool) : string := if s then "-" else "".

Definition digit (n : Z) : ascii := ascii_of_nat (48 + Z.to_nat n).

Definition decimal (n : Z) : string :=
  NilZero.string_of_uint (N.to_uint (Z.to_N n)).

(** [num / den] rounded to the nearest integer, ties to even
    ([0 <= num], [0 < den]). *)
Definition round_half_even (num den : Z) : Z :=
  let q := (num / den)%Z in
  let r := (num mod den)%Z in
  match (2 * r ?= den)%Z with
  | Lt => q
  | Gt => (q + 1)%Z
  | Eq => if Z.even q then q else (q + 1)%Z
  end.

(** Hundredths in [m * 2^e], correctly rounded. *)
Definition hundredths (m : positive) (e : Z) : Z :=
  if (0 <=? e)%Z then (Zpos m * 2 ^ e * 100)%Z
  else round_half_even (Zpos m * 100) (2 ^ (- e)).

Definition format_2f (x : float) : string :=
  match Prim2SF x with
  | S754_nan => "nan"
  | S754_infinity s => sign_str s ++ "inf"
  | S754_zero s => sign_str s ++ "0.00"
  | S754_finite s m e =>
      let c := hundredths m e in
      sign_str s ++ decimal (c / 100) ++ "."
        ++ String (digit (c / 10 mod 10)) (String (digit (c mod 10)) "")
  end.

End Py.
Import Py.

Notation "x <- c ;; k" := (bind c (fun x => k))
  (at level 61, c at next level, right associativity).

(* ================================================================= *)
(** * pandas operations the application calls *)

Module Pandas.

(** [Series.fillna(0)] on one cell. *)
Definition fillna0 (x : float) : float := if is_nan x then 0 else x.

(** [Series.sum()] with the cells added from left to right, missing cells
    skipped.  numpy adds the cells of a column in groups of its own (in
    blocks, pairwise), so that the sum of many cells may differ from this one
    in its last bits; [Series_sum] below says what a sum in any grouping
    gives, and this value is one of them. *)
Definition series_sum (l : list float) : float :=
  fold_left add (filter (fun x => negb (is_nan x)) l) 0.

(** [adds_up l s]: adding up the numbers of [l], in some order and grouping,
    gives [s]; each addition is rounded, and an empty group counts as 0. *)
Inductive adds_up : list float -> float -> Prop :=
| adds_nil : adds_up [] 0
| adds_one (x : float) : adds_up [x] x
| adds_app (l1 l2 : list float) (s1 s2 : float) :
    adds_up l1 s1 -> adds_up l2 s2 -> adds_up (l1 ++ l2) (s1 + s2)
| adds_perm (l l' : list float) (s : float) :
    Permutation l l' -> adds_up l s -> adds_up l' s.

(** [Series.sum()] may return [s]: the missing cells count as nothing (or,
    which is the same, as 0), the others are added up in the grouping of
    numpy's reduction, which is not part of its contract. *)
Definition Series_sum (cells : list float) (s : float) : Prop :=
  adds_up (filter (fun x => negb (is_nan x)) cells) s.

(** The order of [sort_values(col, ascending=False)]: larger keys first,
    missing keys last.  [desc_before a b] reads "a row of key [a] may stand
    before a row of key [b]". *)
Definition desc_before (a b : float) : bool := is_nan b || (b <=? a).

Section SortValues.
Context {R : Type} (key : R -> float).

(** What [df.sort_values(col, ascending=False)] promises with its default
    [kind="quicksort"]: the rows of [df], reordered so that the keys
    descend.  The default kind is not a stable sort, so the order among
    rows of equal key is left open; this is why the operation is a
    relation between the frame and the result. *)
Definition sort_values_desc (df out : list R) : Prop :=
  Permutation df out /\
  StronglySorted (fun a b => desc_before (key a) (key b) = true) out.



End SortValues.

End Pandas.
Import Pandas.

(* ================================================================= *)
(** * Payloads and tables *)

(** One entry of the payload's ["companies"] list. *)
Record Company : Type := mkCompany {
  name : option string;
  symbol : option string;
  country : option string;
  total_holdings : option float;
  total_entry_value_usd : option float;
  total_current_value_usd : option float;
  percentage_of_total_supply : option float
}.

(** The payload's ["total_holdings"]: a number, or a dict keyed by asset. *)
Inductive TotalHoldings : Type :=
| Flat (x : float)
| ByAsset (d : dict float).

Record Payload : Type := mkPayload {
  companies : option (list Company);
  data_total_holdings : option TotalHoldings;
  total_value_usd : option float
}.

(** ** JSON numbers and their binary64 reading *)

(** A number of the payload as [response.json()] gives it: a Python int or a
    Python float. *)
Inductive number : Type :=
| PyInt (z : Z)
| PyFloat (x : float).

(** [float(z)]: the binary64 number nearest to the integer. *)
Definition float_of_int (z : Z) : float :=
  SF2Prim (binary_normalize prec emax z 0 false).

(** [float(z)] before it is packed: the number as sign, mantissa and
    exponent. *)
Definition SFint (z : Z) : spec_float := binary_normalize prec emax z 0 false.

(** [p * 2^k], for [0 <= k]. *)
Definition shlZ (p : positive) (k : Z) : positive :=
  match k with
  | Zpos k' => Pos.iter xO p k'
  | _ => p
  end.

(** The integers below 2^52 in magnitude.  binary64 holds them, and the sum
    and the difference of two of them, exactly: a column of such integers,
    which pandas keeps as int64, and the Python ints [df.apply] hands to the
    lambdas give the same numbers as their floats do. *)
Definition exact_int (z : Z) : bool := (Z.abs z <? 4503599627370496)%Z.

(** The reading of a number; an integer out of the exact range has none. *)
Definition read_number (n : number) : option float :=
  match n with
  | PyFloat x => Some x
  | PyInt z => if exact_int z then Some (float_of_int z) else None
  end.

(** The reading of a field that may be missing. *)
Definition read_field (field : option number) : option (option float) :=
  match field with
  | None => Some None
  | Some n => option_map Some (read_number n)
  end.

(** One entry of the ["companies"] list as parsed from JSON, and its reading
    as a [Company]. *)
Record JsonCompany : Type := mkJsonCompany {
  json_name : option string;
  json_symbol : option string;
  json_country : option string;
  json_total_holdings : option number;
  json_total_entry_value_usd : option number;
  json_total_current_value_usd : option number;
  json_percentage_of_total_supply : option number
}.

Definition read_company (jc : JsonCompany) : option Company :=
  match read_field (json_total_holdings jc),
        read_field (json_total_entry_value_usd jc),
        read_field (json_total_current_value_usd jc),
        read_field (json_percentage_of_total_supply jc) with
  | Some h, Some e, Some c, Some p =>
      Some (mkCompany (json_name jc) (json_symbol jc) (json_country jc)
              h e c p)
  | _, _, _, _ => None
  end.

(** The integer a field holds; a missing field counts as the default [0] of
    [company.get(key, 0)]. *)
Definition int_field (field : option number) : option Z :=
  match field with
  | None => Some 0%Z
  | Some (PyInt z) => Some z
  | Some (PyFloat _) => None
  end.

(** The dict appended to [companies] in [process_treasury_data]. *)
Record CompanyRecord : Type := mkCompanyRecord {
  r_Name : string;
  r_Symbol : string;
  r_Country : string;
  r_Total_Holdings : float;
  r_Entry_Value : float;
  r_Current_Value : float;
  r_Pct_of_Total_Supply : float
}.

(** A row of the frame [process_treasury_data] returns. *)
Record Row : Type := mkRow {
  Name : string;
  Symbol : string;
  Country : string;
  Total_Holdings : float;
  Entry_Value : float;
  Current_Value : float;
  Pct_of_Total_Supply : float;
  PnL : float;
  PnL_pct : float
}.

Definition DataFrame : Type := list Row.

Definition record_of_row (r : Row) : CompanyRecord :=
  mkCompanyRecord (Name r) (Symbol r) (Country r) (Total_Holdings r)
    (Entry_Value r) (Current_Value r) (Pct_of_Total_Supply r).

(* ================================================================= *)
(** * class TreasuryTracker *)

Definition FxRates : Type := dict float.

(** The HTTP exchange of [get_usd_fx_rates], as the method sees it. *)
Record FxPayload : Type := mkFxPayload {
  fx_result : option string;
  fx_rates_field : option (dict float)
}.

Inductive FxResponse : Type :=
| RequestFailed                                   (* [requests.get] raised *)
| Response (status_code : Z) (payload : FxPayload).

(** The tracker's state that the modelled methods read and write: the cache
    entry stored under ["usd_fx_rates"] (time stamp and table) and
    [self.fx_rates]. *)
Record TreasuryTracker : Type := mkTracker {
  cache_usd_fx_rates : option (Z * FxRates);
  fx_rates : FxRates
}.

Definition cache_timeout : Z := 3600.

(** [__init__]. *)
Definition init : TreasuryTracker :=
  mkTracker None [("USD", 1)].

(** The dict built from a successful fetch, after the fallback loop. *)
Definition normalized_rates (rates : dict float) : FxRates :=
  let normalized :=
    [ ("USD", 1);
      ("EUR", dict_get rates "EUR" 0);
      ("GBP", dict_get rates "GBP" 0);
      ("JPY", dict_get rates "JPY" 0);
      ("CAD", dict_get rates "CAD" 0);
      ("AUD", dict_get rates "AUD" 0) ] in
  map (fun kv : string * float =>
         let (k, v) := kv in
         if negb (truthy v)
         then (k, if String.eqb k "USD" then 1 else 0)
         else (k, v))
      normalized.

Definition fallback : FxRates :=
  [("USD", 1); ("EUR", 0); ("GBP", 0); ("JPY", 0); ("CAD", 0); ("AUD", 0)].

(** The [try] block: the table of a successful fetch, if there is one. *)
Definition fetched_rates (resp : FxResponse) : option FxRates :=
  match resp with
  | RequestFailed => None
  | Response status_code payload =>
      if (status_code =? 200)%Z then
        match fx_result payload, fx_rates_field payload with
        | Some res, Some rates =>
            if String.eqb res "success" then Some (normalized_rates rates)
            else None
        | _, _ => None
        end
      else None
  end.

(** [get_usd_fx_rates], run at time [now] with [resp] the outcome of the
    request it would send.  Returns the table and the updated tracker. *)
Definition get_usd_fx_rates (now : Z) (resp : FxResponse)
    (self : TreasuryTracker) : FxRates * TreasuryTracker :=
  let refresh :=
    match fetched_rates resp with
    | Some normalized => (normalized, mkTracker (Some (now, normalized)) normalized)
    | None => (fallback, mkTracker (Some (now, fallback)) fallback)
    end in
  match cache_usd_fx_rates self with
  | Some (cache_time, data) =>
      if (now - cache_time <? cache_timeout)%Z
      then (data, mkTracker (cache_usd_fx_rates self) data)
      else refresh
  | None => refresh
  end.

(** The states a tracker goes through: [__init__], then any number of
    [get_usd_fx_rates] calls. *)
Inductive reachable : TreasuryTracker -> Prop :=
| reachable_init : reachable init
| reachable_fetch now resp self :
    reachable self -> reachable (snd (get_usd_fx_rates now resp self)).

(** ** process_treasury_data *)

Definition company_record (company : Company) : CompanyRecord :=
  mkCompanyRecord
    (get (name company) "Unknown")
    (get (symbol company) "N/A")
    (get (country company) "Unknown")
    (get (total_holdings company) 0)
    (get (total_entry_value_usd company) 0)
    (get (total_current_value_usd company) 0)
    (get (percentage_of_total_supply company) 0).

(** The [lambda r] of the ["PnL %"] column. *)
Definition pnl_percent (pnl entry_value : float) : result float :=
  if truthy entry_value && ne entry_value 0
  then q <- truediv pnl entry_value ;; Ok (q * 100)
  else Ok 0.

(** The two added columns of one row, [df['PnL']] and [df['PnL %']], on
    numbers read as binary64 ([read_number] says which integers that
    covers). *)
Definition with_pnl (r : CompanyRecord) : result Row :=
  let pnl := fillna0 (r_Current_Value r - r_Entry_Value r) in
  pct <- pnl_percent pnl (r_Entry_Value r) ;;
  Ok (mkRow (r_Name r) (r_Symbol r) (r_Country r) (r_Total_Holdings r)
        (r_Entry_Value r) (r_Current_Value r) (r_Pct_of_Total_Supply r)
        pnl pct).

(** [not data]: [None], or a dict with no key. *)
Definition falsy_data (data : option Payload) : bool :=
  match data with
  | None => true
  | Some (mkPayload None None None) => true
  | Some _ => false
  end.

(** [not data or 'companies' not in data]. *)
Definition lacks_companies (data : option Payload) : bool :=
  falsy_data data ||
  match data with
  | Some d => match companies d with None => true | Some _ => false end
  | None => true
  end.

(** The frame just before [sort_values]: empty when the company list is
    missing, otherwise one row per company, in payload order. *)
Definition unsorted_frame (data : option Payload) : result DataFrame :=
  if lacks_companies data then Ok []
  else
    match data with
    | Some d => mapM with_pnl (map company_record (get (companies d) []))
    | None => Ok []
    end.

(** [process_treasury_data(data, coin_id)] may return [res]. *)
Definition process_treasury_data (data : option Payload) (coin_id : string)
    (res : result DataFrame) : Prop :=
  match unsorted_frame data with
  | Raise e => res = Raise e
  | Ok rows => exists df, res = Ok df /\ sort_values_desc Total_Holdings rows df
  end.

(** ** format_currency *)

Definition symbol_map : dict string :=
  [("USD", "$"); ("EUR", "€"); ("GBP", "£"); ("JPY", "¥");
   ("CAD", "C$"); ("AUD", "A$")].

(** [converted = value_usd * self.fx_rates.get(currency, 1.0)]. *)
Definition convert (self : TreasuryTracker) (value_usd : float)
    (currency : string) : float :=
  let rate := dict_get (fx_rates self) currency 1 in
  value_usd * rate.

Definition format_currency (self : TreasuryTracker) (value_usd : float)
    (currency : string) : string :=
  if is_nan value_usd || (value_usd =? 0)
  then dict_get symbol_map currency "$" ++ "0"
  else
    let converted := convert self value_usd currency in
    let prefix := dict_get symbol_map currency "$" in
    let abs_value := abs converted in
    if 1e9 <=? abs_value then prefix ++ format_2f (converted / 1e9) ++ "B"
    else if 1e6 <=? abs_value then prefix ++ format_2f (converted / 1e6) ++ "M"
    else if 1e3 <=? abs_value then prefix ++ format_2f (converted / 1e3) ++ "K"
    else prefix ++ format_2f converted.

(* ================================================================= *)
(** * display_bitcoin_data and display_ethereum_data: supply dominance *)





(** The donut chart's share, computed on the processed, non-empty frame: the
    ['% of Total Supply'] column is always among its columns, so the share is
    the column's sum, clamped.  [companies_share df share]: the chart may
    show [share] for the frame [df]. *)
Definition companies_share (df : DataFrame) (share : float) : Prop :=
  exists s : float,
    Series_sum (map Pct_of_Total_Supply df) s /\ share = max 0 (min 100 s).

Definition others_share (companies_share : float) : float :=
  100 - companies_share.

(* ================================================================= *)
(** * display_combined_data: the merged view *)

(** The three columns of one asset that enter the merge. *)
Record AssetRow : Type := mkAssetRow {
  a_Company : string;
  a_Symbol : string;
  a_Country : string;
  a_Held : float;
  a_EntryUSD : float;
  a_CurrentUSD : float
}.

(** [df[['Company','Symbol','Country','Holdings','EntryUSD','CurrentUSD']]]
    after the renames, or the empty frame with those columns. *)
Definition asset_row (r : Row) : AssetRow :=
  mkAssetRow (Name r) (Symbol r) (Country r)
    (Total_Holdings r) (Entry_Value r) (Current_Value r).

Definition asset_columns (df : DataFrame) : list AssetRow :=
  match df with
  | [] => []
  | _ :: _ => map asset_row df
  end.

(** A row of [pd.merge(..., how='outer')]: the key and both sides' columns,
    NaN where a side has no row of that key. *)
Record MergedRow : Type := mkMergedRow {
  m_Company : string;
  m_Symbol : string;
  m_Country : string;
  m_BTC_Held : float;
  m_EntryUSD_BTC : float;
  m_CurrentUSD_BTC : float;
  m_ETH_Held : float;
  m_EntryUSD_ETH : float;
  m_CurrentUSD_ETH : float
}.

Definition same_key (l r : AssetRow) : bool :=
  String.eqb (a_Company l) (a_Company r)
  && String.eqb (a_Symbol l) (a_Symbol r)
  && String.eqb (a_Country l) (a_Country r).

Definition both (l r : AssetRow) : MergedRow :=
  mkMergedRow (a_Company l) (a_Symbol l) (a_Country l)
    (a_Held l) (a_EntryUSD l) (a_CurrentUSD l)
    (a_Held r) (a_EntryUSD r) (a_CurrentUSD r).

Definition left_only (l : AssetRow) : MergedRow :=
  mkMergedRow (a_Company l) (a_Symbol l) (a_Country l)
    (a_Held l) (a_EntryUSD l) (a_CurrentUSD l) nan nan nan.

Definition right_only (r : AssetRow) : MergedRow :=
  mkMergedRow (a_Company r) (a_Symbol r) (a_Country r)
    nan nan nan (a_Held r) (a_EntryUSD r) (a_CurrentUSD r).

(** [pd.merge(left, right, on=['Company','Symbol','Country'], how='outer')]:
    every pair of rows of equal key, every left row without a partner, every
    right row without a partner.  pandas orders the result by key; the
    properties below do not depend on the order of the rows, and the model
    lists them left rows first. *)
Definition merge_outer (left right : list AssetRow) : list MergedRow :=
  flat_map (fun l =>
              match filter (same_key l) right with
              | [] => [left_only l]
              | partners => map (both l) partners
              end) left
  ++ map right_only
       (filter (fun r => negb (existsb (fun l => same_key l r) left)) right).

(** [.fillna(0)] on a merged row. *)
Definition fillna_row (m : MergedRow) : MergedRow :=
  mkMergedRow (m_Company m) (m_Symbol m) (m_Country m)
    (fillna0 (m_BTC_Held m)) (fillna0 (m_EntryUSD_BTC m))
    (fillna0 (m_CurrentUSD_BTC m))
    (fillna0 (m_ETH_Held m)) (fillna0 (m_EntryUSD_ETH m))
    (fillna0 (m_CurrentUSD_ETH m)).

(** A row of [combined_df]. *)
Record CombinedRow : Type := mkCombinedRow {
  Company_ : string;
  Symbol_ : string;
  Country_ : string;
  BTC_Held : float;
  EntryUSD_BTC : float;
  CurrentUSD_BTC : float;
  ETH_Held : float;
  EntryUSD_ETH : float;
  CurrentUSD_ETH : float;
  Total_Entry_Value : float;
  Total_Current_Value : float;
  Total_PnL : float
}.

Definition with_totals (m : MergedRow) : CombinedRow :=
  let total_entry := m_EntryUSD_BTC m + m_EntryUSD_ETH m in
  let total_current := m_CurrentUSD_BTC m + m_CurrentUSD_ETH m in
  mkCombinedRow (m_Company m) (m_Symbol m) (m_Country m)
    (m_BTC_Held m) (m_EntryUSD_BTC m) (m_CurrentUSD_BTC m)
    (m_ETH_Held m) (m_EntryUSD_ETH m) (m_CurrentUSD_ETH m)
    total_entry total_current (total_current - total_entry).

(** [combined_df], from the two processed frames. *)
Definition combined_df (btc_df eth_df : DataFrame) : list CombinedRow :=
  map with_totals
    (map fillna_row (merge_outer (asset_columns btc_df) (asset_columns eth_df))).

(** The [lambda r] of the ['Company PnL %'] column. *)
Definition company_pnl_percent (r : CombinedRow) : result float :=
  if truthy (Total_Entry_Value r) && ne (Total_Entry_Value r) 0
  then
    q <- truediv (Total_Current_Value r - Total_Entry_Value r)
                 (Total_Entry_Value r) ;;
    Ok (q * 100)
  else Ok 0.

(** The table [display_combined_data] shows, before currency formatting:
    each combined row with its ['Company PnL'] and ['Company PnL %'].  [None]
    when both frames are empty and nothing is drawn. *)
Definition display_combined_data (btc_df eth_df : DataFrame)
    : option (result (list (CombinedRow * float * float))) :=
  match btc_df, eth_df with
  | [], [] => None
  | _, _ =>
      Some (mapM (fun r =>
                    pct <- company_pnl_percent r ;;
                    Ok (r, Total_Current_Value r - Total_Entry_Value r, pct))
                 (combined_df btc_df eth_df))
  end.

(** The identity key of a combined row, and the test for it. *)
Definition key_of (r : CombinedRow) : string * string * string :=
  (Company_ r, Symbol_ r, Country_ r).

Definition row_key (r : Row) : string * string * string :=
  (Name r, Symbol r, Country r).

Definition key_eqb (k1 k2 : string * string * string) : bool :=
  let '(c1, s1, n1) := k1 in
  let '(c2, s2, n2) := k2 in
  String.eqb c1 c2 && String.eqb s1 s2 && String.eqb n1 n2.

Definition has_key (k : string * string * string) (r : CombinedRow) : bool :=
  key_eqb (key_of r) k.

(** No two elements of the list of keys are equal. *)
Fixpoint unique_keys (ks : list (string * string * string)) : bool :=
  match ks with
  | [] => true
  | k :: ks' => negb (existsb (key_eqb k) ks') && unique_keys ks'
  end.

(** The row of key [k] in a processed frame, if any. *)
Definition find_row (k : string * string * string) (df : DataFrame)
    : option Row :=
  find (fun r => key_eqb (row_key r) k) df.

(** What one asset contributes to a combined row: the company's row with
    missing cells read as 0, or three zeros when the company has no row. *)
Definition asset_values (r : option Row) : float * float * float :=
  match r with
  | Some r => (fillna0 (Total_Holdings r), fillna0 (Entry_Value r),
               fillna0 (Current_Value r))
  | None => (0, 0, 0)
  end.

(** The combined row of key [k] built from the company's Bitcoin row [b] and
    Ethereum row [e]. *)
Definition combined_row_of (k : string * string * string) (b e : option Row)
    : CombinedRow :=
  let '(c, s, n) := k in
  let '(bh, be, bc) := asset_values b in
  let '(eh, ee, ec) := asset_values e in
  mkCombinedRow c s n bh be bc eh ee ec
    (be + ee) (bc + ec) ((bc + ec) - (be + ee)).

(** The combined row read with the two assets exchanged. *)
Definition swap_assets (r : CombinedRow) : CombinedRow :=
  mkCombinedRow (Company_ r) (Symbol_ r) (Country_ r)
    (ETH_Held r) (EntryUSD_ETH r) (CurrentUSD_ETH r)
    (BTC_Held r) (EntryUSD_BTC r) (CurrentUSD_BTC r)
    (Total_Entry_Value r) (Total_Current_Value r) (Total_PnL r).

(* ================================================================= *)
(** * Derived forms, the specification's rules, and sample inputs *)

(** Zero or a finite non-zero number, on the specification side. *)
Definition SFfinite (x : spec_float) : bool :=
  match x with
  | S754_zero _ | S754_finite _ _ _ => true
  | _ => false
  end.

(** The row [with_pnl] yields, as a total function. *)
Definition enriched (r : CompanyRecord) : Row :=
  let pnl := fillna0 (r_Current_Value r - r_Entry_Value r) in
  mkRow (r_Name r) (r_Symbol r) (r_Country r) (r_Total_Holdings r)
    (r_Entry_Value r) (r_Current_Value r) (r_Pct_of_Total_Supply r)
    pnl (if r_Entry_Value r =? 0 then 0 else pnl / r_Entry_Value r * 100).

(** The rows of the frame before sorting: one per company, in order. *)
Definition rows_of (data : option Payload) : list Row :=
  if lacks_companies data then []
  else match data with
       | Some d => map enriched (map company_record (get (companies d) []))
       | None => []
       end.

(** What every tracker state keeps: USD at 1.0 in [self.fx_rates] and in the
    cached table. *)
Definition usd_is_one (self : TreasuryTracker) : Prop :=
  lookup (fx_rates self) "USD" = Some 1 /\
  match cache_usd_fx_rates self with
  | Some (_, data) => lookup data "USD" = Some 1
  | None => True
  end.

(** The identity key of a row entering the merge, and of a merged row. *)
Definition a_key (a : AssetRow) : string * string * string :=
  (a_Company a, a_Symbol a, a_Country a).

Definition m_key (m : MergedRow) : string * string * string :=
  (m_Company m, m_Symbol m, m_Country m).

(** A merged row read with its two sides exchanged. *)
Definition m_swap (m : MergedRow) : MergedRow :=
  mkMergedRow (m_Company m) (m_Symbol m) (m_Country m)
    (m_ETH_Held m) (m_EntryUSD_ETH m) (m_CurrentUSD_ETH m)
    (m_BTC_Held m) (m_EntryUSD_BTC m) (m_CurrentUSD_BTC m).

(** [combined_df] with the two frames handed to [pd.merge] in the other
    order.  The asset columns get their names (['BTC Held'], ['EntryUSD_ETH'],
    ...) before the merge, so the Ethereum frame, now on the left, still fills
    the Ethereum columns: with the columns at fixed positions, this is the
    merge of (Ethereum, Bitcoin) read through [m_swap]. *)
Definition combined_df_other_order (btc_df eth_df : DataFrame)
    : list CombinedRow :=
  map with_totals
    (map fillna_row
       (map m_swap
          (merge_outer (asset_columns eth_df) (asset_columns btc_df)))).

(** The sign condition on the numbers a company entry carries. *)
Definition nonneg_field (field : option float) : bool :=
  match field with
  | Some x => 0 <=? x
  | None => true
  end.

Definition nonneg_company (c : Company) : bool :=
  nonneg_field (total_holdings c)
  && nonneg_field (total_entry_value_usd c)
  && nonneg_field (total_current_value_usd c).






(** A column of ten cells of 0.1. *)
Definition ten_tenths : list float := repeat (1 / 10) 10.

(** A payload whose one company reports negative holdings. *)
Definition negative_payload : Payload :=
  mkPayload
    (Some [ mkCompany (Some "A") (Some "AAA") (Some "US") (Some (-1))
              (Some 10) (Some 20) None ])
    None None.

Definition negative_row : Row := mkRow "A" "AAA" "US" (-1) 10 20 0 10 100.

(** The specification's two sample companies, B listed first, and a company
    entry with no field at all; the rows built from them, in payload order;
    and the frame they are sorted into. *)
Definition nonneg_payload : Payload :=
  mkPayload
    (Some [ mkCompany (Some "B") None (Some "US") (Some 500)
              (Some 20000000) (Some 10000000) None;
            mkCompany (Some "A") None (Some "US") (Some 1000)
              (Some 30000000) (Some 50000000) None;
            mkCompany None None None None None None None ])
    None None.

Definition nonneg_rows : DataFrame :=
  [ mkRow "B" "N/A" "US" 500 20000000 10000000 0 (-10000000) (-50);
    mkRow "A" "N/A" "US" 1000 30000000 50000000 0 20000000
      (20000000 / 30000000 * 100);
    mkRow "Unknown" "N/A" "Unknown" 0 0 0 0 0 0 ].

Definition nonneg_frame : DataFrame :=
  [ mkRow "A" "N/A" "US" 1000 30000000 50000000 0 20000000
      (20000000 / 30000000 * 100);
    mkRow "B" "N/A" "US" 500 20000000 10000000 0 (-10000000) (-50);
    mkRow "Unknown" "N/A" "Unknown" 0 0 0 0 0 0 ].


(** Company A with its numbers as JSON integers, and a company whose current
    value is not a number. *)
Definition json_company_A : JsonCompany :=
  mkJsonCompany (Some "A") None (Some "US") (Some (PyInt 1000))
    (Some (PyInt 30000000)) (Some (PyInt 50000000)) None.

Definition nan_current_company : JsonCompany :=
  mkJsonCompany (Some "N") None (Some "US") (Some (PyInt 10))
    (Some (PyInt 100)) (Some (PyFloat nan)) None.

(** The specification's company A, a company entry with no field, and a
    payload that has a total but no company list. *)
Definition company_A : Company :=
  mkCompany (Some "A") None (Some "US") (Some 1000)
    (Some 30000000) (Some 50000000) None.

Definition blank_company : Company :=
  mkCompany None None None None None None None.

Definition total_only_payload : Payload :=
  mkPayload None (Some (ByAsset [("bitcoin", 1000)])) None.

(** Two Bitcoin rows under one key, and no Ethereum row. *)
Definition duplicate_btc_df : DataFrame :=
  [ mkRow "A" "AAA" "US" 2 0 0 0 0 0; mkRow "A" "AAA" "US" 1 0 0 0 0 0 ].

(* ================================================================= *)
(** * get_treasury_data and the payload cache *)

(** [d[k] = v]: the value of an existing key is replaced, a new key is added
    at the end. *)
Fixpoint dict_set {V} (d : dict V) (k : string) (v : V) : dict V :=
  match d with
  | [] => [(k, v)]
  | (k', v') :: d' =>
      if String.eqb k' k then (k, v) :: d' else (k', v') :: dict_set d' k v
  end.

(** The entries of [self.cache] that [get_treasury_data] reads and writes:
    time stamp and payload under the key [f"treasury_{coin_id}"].  No other
    method uses a key of that form. *)
Definition TreasuryCache : Type := dict (Z * Payload).

Definition cache_key (coin_id : string) : string := "treasury_" ++ coin_id.

(** What [self.session.get(url)] does for [get_treasury_data]: it raises (as
    does [response.json()] on a body that is not JSON), or answers with a
    status code and a body. *)
Inductive TreasuryResponse : Type :=
| FetchRaised
| FetchStatus (status_code : Z) (json : Payload).

(** [get_treasury_data(coin_id)], run at time [now] on cache [cache], with
    [resp] the outcome of the request it would send.  Returns the payload or
    [None], and the cache it leaves.  (On [None] it also calls [st.error].)
    The clock counts whole seconds, and the two readings of [time.time()]
    within one call, for the freshness test and for the time stamp, are taken
    as one instant. *)
Definition get_treasury_data (now : Z) (resp : TreasuryResponse)
    (cache : TreasuryCache) (coin_id : string)
    : option Payload * TreasuryCache :=
  let fetch :=
    match resp with
    | FetchStatus status_code data =>
        if (status_code =? 200)%Z
        then (Some data, dict_set cache (cache_key coin_id) (now, data))
        else (None, cache)
    | FetchRaised => (None, cache)
    end in
  match lookup cache (cache_key coin_id) with
  | Some (cache_time, data) =>
      if (now - cache_time <? cache_timeout)%Z then (Some data, cache)
      else fetch
  | None => fetch
  end.

(** The cache holds no entry for the coin that is still fresh at [now]. *)
Definition no_fresh_entry (now : Z) (cache : TreasuryCache)
    (coin_id : string) : bool :=
  match lookup cache (cache_key coin_id) with
  | Some (cache_time, _) => negb (now - cache_time <? cache_timeout)%Z
  | None => true
  end.

(** The same for the FX table of [get_usd_fx_rates]. *)
Definition no_fresh_rates (now : Z) (self : TreasuryTracker) : bool :=
  match cache_usd_fx_rates self with
  | Some (cache_time, _) => negb (now - cache_time <? cache_timeout)%Z
  | None => true
  end.

(** The currency codes of the FX table, in the order of the dict. *)
Definition fx_codes : list string :=
  ["USD"; "EUR"; "GBP"; "JPY"; "CAD"; "AUD"].

(* ================================================================= *)
(** * display_combined_data: the metric rows *)

(** [pnl_pct = (total_pnl / total_entry * 100) if total_entry > 0 else 0]. *)
Definition portfolio_pnl_pct (total_pnl total_entry : float) : result float :=
  if 0 <? total_entry
  then q <- truediv total_pnl total_entry ;; Ok (q * 100)
  else Ok 0.

(** The figures of the two metric rows. *)
Record CombinedMetrics : Type := mkCombinedMetrics {
  total_btc : float;
  total_eth : float;
  total_entry : float;
  total_current : float;
  total_pnl : float;
  pnl_pct : float;
  total_companies : nat;
  btc_companies : nat;
  eth_companies : nat
}.

(** The figures are computed with the column sums taken from left to right
    ([series_sum]); the statements about them are on counts, on sums of
    zeros and on relations between the totals, which are the same in every
    grouping of the additions. *)
Definition combined_metrics (combined : list CombinedRow)
    : result CombinedMetrics :=
  let total_btc := series_sum (map BTC_Held combined) in
  let total_eth := series_sum (map ETH_Held combined) in
  let total_entry := series_sum (map Total_Entry_Value combined) in
  let total_current := series_sum (map Total_Current_Value combined) in
  let total_pnl := total_current - total_entry in
  pnl_pct <- portfolio_pnl_pct total_pnl total_entry ;;
  Ok (mkCombinedMetrics total_btc total_eth total_entry total_current
        total_pnl pnl_pct
        (List.length combined)
        (List.length (filter (fun r => 0 <? BTC_Held r) combined))
        (List.length (filter (fun r => 0 <? ETH_Held r) combined))).

(** A combined row carries the Bitcoin (Ethereum) figures of a table row,
    missing cells read as 0, under that row's key; or it has no figures for
    the asset. *)
Definition btc_part_of (b : Row) (r : CombinedRow) : Prop :=
  key_of r = row_key b /\
  BTC_Held r = fillna0 (Total_Holdings b) /\
  EntryUSD_BTC r = fillna0 (Entry_Value b) /\
  CurrentUSD_BTC r = fillna0 (Current_Value b).

Definition eth_part_of (e : Row) (r : CombinedRow) : Prop :=
  key_of r = row_key e /\
  ETH_Held r = fillna0 (Total_Holdings e) /\
  EntryUSD_ETH r = fillna0 (Entry_Value e) /\
  CurrentUSD_ETH r = fillna0 (Current_Value e).

Definition no_btc_part (r : CombinedRow) : Prop :=
  BTC_Held r = 0 /\ EntryUSD_BTC r = 0 /\ CurrentUSD_BTC r = 0.

Definition no_eth_part (r : CombinedRow) : Prop :=
  ETH_Held r = 0 /\ EntryUSD_ETH r = 0 /\ CurrentUSD_ETH r = 0.

(* ================================================================= *)
(** * The "Companies Tracked" figure *)

(** [total_companies = len(data.get('companies', []))] of
    [display_bitcoin_data] and [display_ethereum_data]. *)
Definition companies_tracked (data : Payload) : nat :=
  List.length (get (companies data) []).

(** The keys of the table in use, and of the cached table: USD alone right
    after [__init__], the six codes from the first fetch on. *)
Definition fx_keys_ok (self : TreasuryTracker) : Prop :=
  (map fst (fx_rates self) = ["USD"] \/ map fst (fx_rates self) = fx_codes) /\
  match cache_usd_fx_rates self with
  | Some (_, data) => map fst data = fx_codes
  | None => True
  end.

(* ================================================================= *)
(** * format_crypto_amount *)

(** The [,] option of [format]: the digits of the integer part, given last
    digit first, with a comma after every third digit that has a digit after
    it. *)
Fixpoint commas (rev_digits : list ascii) : list ascii :=
  match rev_digits with
  | a :: b :: c :: ((_ :: _) as rest) =>
      a :: b :: c :: ","%char :: commas rest
  | _ => rev_digits
  end.

Definition thousands (digits : string) : string :=
  string_of_list_ascii (rev (commas (rev (list_ascii_of_string digits)))).

(** Units in [m * 2^e], correctly rounded. *)
Definition units (m : positive) (e : Z) : Z :=
  if (0 <=? e)%Z then (Zpos m * 2 ^ e)%Z
  else round_half_even (Zpos m) (2 ^ (- e)).

(** [format(x, ",.0f")]. *)
Definition format_comma_0f (x : float) : string :=
  match Prim2SF x with
  | S754_nan => "nan"
  | S754_infinity s => sign_str s ++ "inf"
  | S754_zero s => sign_str s ++ "0"
  | S754_finite s m e => sign_str s ++ thousands (decimal (units m e))
  end.

(** [format(x, ",.2f")]. *)
Definition format_comma_2f (x : float) : string :=
  match Prim2SF x with
  | S754_nan => "nan"
  | S754_infinity s => sign_str s ++ "inf"
  | S754_zero s => sign_str s ++ "0.00"
  | S754_finite s m e =>
      let c := hundredths m e in
      sign_str s ++ thousands (decimal (c / 100)) ++ "."
        ++ String (digit (c / 10 mod 10)) (String (digit (c mod 10)) "")
  end.

(** [format_crypto_amount(amount, coin)]; the method does not read [self]. *)
Definition format_crypto_amount (amount : float) (coin : string) : string :=
  if is_nan amount || (amount =? 0) then "0"
  else if String.eqb coin "BTC" then format_comma_0f amount ++ " BTC"
  else if String.eqb coin "ETH" then format_comma_0f amount ++ " ETH"
  else format_comma_2f amount ++ " " ++ coin.

(* ================================================================= *)
(** * Facts on binary64 arithmetic

    Derived from the specification of the primitive operations
    ([FloatAxioms]) over [spec_float]. *)

Module FloatFacts.

Ltac cmp_cases :=
  repeat match goal with
  | |- context [Z.compare ?a ?b] => destruct (Z.compare_spec a b)
  | H : context [Z.compare ?a ?b] |- _ => destruct (Z.compare_spec a b)
  | |- context [Pos.compare ?a ?b] => destruct (Pos.compare_spec a b)
  | H : context [Pos.compare ?a ?b] |- _ => destruct (Pos.compare_spec a b)
  end.

(** ** Classification *)

Lemma SFeqb_refl_finite s m e :
  SFeqb (S754_finite s m e) (S754_finite s m e) = true.
Proof.
  unfold SFeqb, SFcompare.
  destruct s; rewrite Z.compare_refl, Pos.compare_cont_refl; reflexivity.
Qed.

Lemma is_nan_spec x :
  is_nan x = match Prim2SF x with S754_nan => true | _ => false end.
Proof.
  unfold is_nan. rewrite eqb_spec.
  destruct (Prim2SF x) as [s|s| |s m e]; try reflexivity.
  - destruct s; reflexivity.
  - rewrite SFeqb_refl_finite. reflexivity.
Qed.

Lemma is_finite_spec x : is_finite x = SFfinite (Prim2SF x).
Proof.
  unfold is_finite. rewrite is_nan_spec.
  unfold is_infinity. rewrite eqb_spec, abs_spec.
  change (Prim2SF infinity) with (S754_infinity false).
  destruct (Prim2SF x) as [s|s| |s m e]; try reflexivity;
    destruct s; reflexivity.
Qed.

Lemma is_finite_not_nan x : is_finite x = true -> is_nan x = false.
Proof.
  rewrite is_finite_spec, is_nan_spec.
  destruct (Prim2SF x); simpl; congruence.
Qed.

Lemma eqb_zero_spec x :
  (x =? 0) = match Prim2SF x with S754_zero _ => true | _ => false end.
Proof.
  rewrite eqb_spec. change (Prim2SF 0) with (S754_zero false).
  destruct (Prim2SF x) as [s|s| |s m e]; try reflexivity;
    destruct s; reflexivity.
Qed.

(** ** Order *)

Lemma SFleb_trans a b c :
  SFleb a b = true -> SFleb b c = true -> SFleb a c = true.
Proof.
  unfold SFleb, SFcompare.
  destruct a as [sa|sa| |sa ma ea], b as [sb|sb| |sb mb eb],
           c as [sc|sc| |sc mc ec];
    try destruct sa; try destruct sb; try destruct sc; simpl;
    try congruence;
    change (Pos.compare_cont Eq) with Pos.compare;
    intros H1 H2; cmp_cases; simpl in *; try congruence; try lia.
Qed.



Lemma SFleb_not_nan a b :
  SFleb a b = true -> a <> S754_nan /\ b <> S754_nan.
Proof.
  unfold SFleb, SFcompare.
  destruct a, b; simpl; try congruence; split; congruence.
Qed.

Lemma SFcompare_antisym a b :
  SFcompare b a = option_map CompOpp (SFcompare a b).
Proof.
  destruct a as [sa|sa| |sa ma ea], b as [sb|sb| |sb mb eb]; simpl; trivial;
    try (destruct sa; reflexivity); try (destruct sb; reflexivity);
    try (destruct sa, sb; reflexivity).
  destruct sa, sb; simpl; trivial;
    rewrite (Z.compare_antisym ea eb);
    destruct (Z.compare_spec ea eb); simpl; trivial;
    rewrite (Pos.compare_cont_antisym); simpl; rewrite ?CompOpp_involutive;
    trivial.
Qed.

Lemma eqb_sym x y : (x =? y) = (y =? x).
Proof.
  rewrite !eqb_spec. unfold SFeqb.
  rewrite (SFcompare_antisym (Prim2SF x) (Prim2SF y)).
  destruct (SFcompare (Prim2SF x) (Prim2SF y)) as [[]|]; reflexivity.
Qed.





Lemma leb_trans x y z :
  (x <=? y) = true -> (y <=? z) = true -> (x <=? z) = true.
Proof. rewrite !leb_spec. apply SFleb_trans. Qed.



Lemma leb_not_nan x y :
  (x <=? y) = true -> is_nan x = false /\ is_nan y = false.
Proof.
  rewrite leb_spec, !is_nan_spec. intros H.
  destruct (SFleb_not_nan _ _ H) as [Hx Hy].
  destruct (Prim2SF x), (Prim2SF y); congruence || auto.
Qed.

(** ** Addition and subtraction *)

Lemma SFadd_comm a b : SF64add a b = SF64add b a.
Proof.
  destruct a as [sa|sa| |sa ma ea], b as [sb|sb| |sb mb eb]; simpl; trivial;
    try (destruct sa, sb; reflexivity).
  rewrite Z.min_comm, Z.add_comm. reflexivity.
Qed.

Lemma add_comm x y : x + y = y + x.
Proof. apply Prim2SF_inj. rewrite !add_spec. apply SFadd_comm. Qed.

(** Adding [0.0] changes nothing but the sign of a negative zero. *)
Lemma add_zero_r x : Prim2SF x <> S754_zero true -> x + 0 = x.
Proof.
  intros H. apply Prim2SF_inj. rewrite add_spec.
  change (Prim2SF 0) with (S754_zero false).
  destruct (Prim2SF x) as [s|s| |s m e]; simpl; trivial.
  destruct s; congruence.
Qed.

Lemma add_zero_r_eqb x : is_nan x = false -> (x + 0 =? x) = true.
Proof.
  rewrite is_nan_spec, eqb_spec, add_spec.
  change (Prim2SF 0) with (S754_zero false).
  destruct (Prim2SF x) as [s|s| |s m e]; simpl; try congruence; intros _;
    try (destruct s; reflexivity).
  apply SFeqb_refl_finite.
Qed.

Lemma shr_1_nonneg mrs : (0 <= shr_m mrs)%Z -> (0 <= shr_m (shr_1 mrs))%Z.
Proof.
  destruct mrs as [m r s]. simpl.
  destruct m as [|p|p]; [ | destruct p | ]; simpl; lia.
Qed.

Lemma iter_shr_1_nonneg p : forall mrs,
  (0 <= shr_m mrs)%Z -> (0 <= shr_m (iter_pos shr_1 p mrs))%Z.
Proof.
  induction p as [p IH|p IH|]; intros mrs H; simpl.
  - apply IH, IH, shr_1_nonneg, H.
  - apply IH, IH, H.
  - apply shr_1_nonneg, H.
Qed.

Lemma shr_fexp_nonneg m e l :
  (0 <= m)%Z -> (0 <= shr_m (fst (shr_fexp prec emax m e l)))%Z.
Proof.
  intros H. unfold shr_fexp, shr.
  assert (H0 : (0 <= shr_m (shr_record_of_loc m l))%Z)
    by (destruct l as [|[]]; exact H).
  destruct (fexp prec emax (Zdigits2 m + e) - e)%Z; simpl; trivial.
  apply iter_shr_1_nonneg, H0.
Qed.

Lemma round_nearest_even_nonneg m l :
  (0 <= m)%Z -> (0 <= round_nearest_even m l)%Z.
Proof.
  intros H. destruct l as [|[]]; simpl; try lia.
  destruct (Z.even m); lia.
Qed.

Lemma binary_round_aux_not_nan s m e l :
  (0 <= m)%Z -> binary_round_aux prec emax s m e l <> S754_nan.
Proof.
  intros H. unfold binary_round_aux.
  pose proof (shr_fexp_nonneg m e l H) as H1.
  destruct (shr_fexp prec emax m e l) as [mrs' e']. simpl in H1.
  pose proof (shr_fexp_nonneg _ e' loc_Exact
                (round_nearest_even_nonneg _ (loc_of_shr_record mrs') H1))
    as H2.
  destruct (shr_fexp prec emax _ e' loc_Exact) as [mrs'' e'']. simpl in H2.
  destruct (shr_m mrs'') as [|p|p]; try discriminate; try lia.
  destruct (e'' <=? emax - prec)%Z; discriminate.
Qed.

Lemma binary_normalize_not_nan m e sz :
  binary_normalize prec emax m e sz <> S754_nan.
Proof.
  destruct m as [|p|p]; simpl; try discriminate;
    unfold binary_round;
    destruct (shl_align _ _ _) as [mz ez];
    apply binary_round_aux_not_nan; lia.
Qed.

Lemma SFsub_finite_not_nan a b :
  SFfinite a = true -> SFfinite b = true -> SF64sub a b <> S754_nan.
Proof.
  destruct a as [sa|sa| |sa ma ea], b as [sb|sb| |sb mb eb]; simpl;
    try discriminate; intros _ _.
  - destruct sa, sb; discriminate.
  - apply binary_normalize_not_nan.
Qed.

(** The difference of two finite numbers is a number. *)
Lemma sub_finite_not_nan x y :
  is_finite x = true -> is_finite y = true -> is_nan (x - y) = false.
Proof.
  rewrite !is_finite_spec, is_nan_spec, sub_spec. intros Hx Hy.
  pose proof (SFsub_finite_not_nan _ _ Hx Hy) as H.
  destruct (SF64sub (Prim2SF x) (Prim2SF y)); congruence.
Qed.

(** ** Multiplication *)

Lemma bounded_inv m e :
  bounded prec emax m e = true ->
  fexp prec emax (Zpos (digits2_pos m) + e) = e /\ (e <= emax - prec)%Z.
Proof.
  unfold bounded, canonical_mantissa. intros H.
  apply andb_prop in H. destruct H as [H1 H2].
  apply Z.eqb_eq in H1. apply Z.leb_le in H2. auto.
Qed.

(** Rounding [m * 2^52 * 2^(e - 52)] gives back [m * 2^e]. *)
Lemma round_aux_exact s m e :
  bounded prec emax m e = true ->
  binary_round_aux prec emax s (Zpos (m * 4503599627370496)) (e + -52)
    loc_Exact
  = S754_finite s m e.
Proof.
  intros Hb. destruct (bounded_inv m e Hb) as [Hc He].
  assert (Hd : Zpos (digits2_pos (4503599627370496 * m))
               = (Zpos (digits2_pos m) + 52)%Z)
    by (cbn [Pos.mul digits2_pos]; lia).
  unfold binary_round_aux.
  rewrite Pos.mul_comm. unfold shr_fexp at 1.
  cbn [Zdigits2 shr_record_of_loc]. rewrite Hd.
  replace (Zpos (digits2_pos m) + 52 + (e + -52))%Z
    with (Zpos (digits2_pos m) + e)%Z by lia.
  rewrite Hc. replace (e - (e + -52))%Z with 52%Z by lia.
  cbn [Pos.mul shr iter_pos shr_1 orb fst snd shr_m loc_of_shr_record
       round_nearest_even].
  replace (e + -52 + 52)%Z with e by lia.
  unfold shr_fexp. cbn [Zdigits2 shr_record_of_loc].
  rewrite Hc, Z.sub_diag.
  cbn [shr shr_m]. apply Z.leb_le in He. rewrite He. reflexivity.
Qed.

Lemma mul_one_r x : x * 1 = x.
Proof.
  apply Prim2SF_inj. rewrite mul_spec.
  change (Prim2SF 1) with (S754_finite false 4503599627370496 (-52)).
  pose proof (Prim2SF_valid x) as Hv.
  destruct (Prim2SF x) as [s|s| |s m e]; simpl; rewrite ?xorb_false_r; trivial.
  apply round_aux_exact. exact Hv.
Qed.

(** A finite number times [0.0] is a zero of the number's sign. *)
Lemma mul_zero_r_finite x s m e :
  Prim2SF x = S754_finite s m e -> Prim2SF (x * 0) = S754_zero s.
Proof.
  intros H. rewrite mul_spec, H.
  change (Prim2SF 0) with (S754_zero false).
  simpl. rewrite xorb_false_r. reflexivity.
Qed.

(** The sign of a finite non-zero number, read by comparison with 0. *)
Lemma ltb_zero_finite x s m e :
  Prim2SF x = S754_finite s m e -> (x <? 0) = s.
Proof.
  intros H. rewrite ltb_spec, H.
  change (Prim2SF 0) with (S754_zero false).
  destruct s; reflexivity.
Qed.

End FloatFacts.

Import FloatFacts.

(* ================================================================= *)
(** * Integers as binary64 numbers

    The float of an integer below 2^53 in magnitude is the integer itself,
    and the difference of two integers below 2^52 is computed exactly: on
    such integers the integer columns of pandas and their reading as
    binary64 agree. *)

Lemma digits2_iter_xO p k :
  digits2_pos (Pos.iter xO p k) = (digits2_pos p + k)%positive.
Proof.
  induction k as [|k IH] using Pos.peano_ind.
  - simpl. lia.
  - rewrite Pos.iter_succ. simpl. rewrite IH. lia.
Qed.

Lemma digits2_shlZ p k :
  (0 <= k)%Z -> Zpos (digits2_pos (shlZ p k)) = (Zpos (digits2_pos p) + k)%Z.
Proof.
  destruct k as [|k|k]; simpl; intros H; try lia.
  rewrite digits2_iter_xO. lia.
Qed.

Lemma Zpos_iter_xO p k : Zpos (Pos.iter xO p k) = (Zpos p * 2 ^ Zpos k)%Z.
Proof.
  induction k as [|k IH] using Pos.peano_ind.
  - simpl. lia.
  - rewrite Pos.iter_succ, Pos2Z.inj_xO, IH, Pos2Z.inj_succ, Z.pow_succ_r by lia.
    lia.
Qed.

Lemma Zpos_shlZ p k : (0 <= k)%Z -> Zpos (shlZ p k) = (Zpos p * 2 ^ k)%Z.
Proof.
  destruct k as [|k|k]; simpl; intros H; try lia.
  apply Zpos_iter_xO.
Qed.

Lemma shlZ_shlZ p a b :
  (0 <= a)%Z -> (0 <= b)%Z -> shlZ (shlZ p a) b = shlZ p (a + b).
Proof.
  intros Ha Hb. apply Pos2Z.inj.
  rewrite !Zpos_shlZ, Z.pow_add_r by lia. lia.
Qed.

Lemma iter_shr_exact n : forall m,
  iter_pos shr_1 n
    {| shr_m := Zpos (Pos.iter xO m n); shr_r := false; shr_s := false |}
  = {| shr_m := Zpos m; shr_r := false; shr_s := false |}.
Proof.
  induction n as [n IH|n IH|]; intros m; simpl.
  - rewrite IH, IH. reflexivity.
  - rewrite IH, IH. reflexivity.
  - reflexivity.
Qed.

(** Rounding [m * 2^n] at exponent [e - n], for a mantissa [m] of 53 bits,
    gives [m] at exponent [e]. *)
Lemma round_aux_shifted s m e n :
  Zpos (digits2_pos m) = 53%Z ->
  (-1074 <= e <= 971)%Z -> (0 <= n)%Z ->
  binary_round_aux prec emax s (Zpos (shlZ m n)) (e - n) loc_Exact
  = S754_finite s m e.
Proof.
  intros Hd He Hn. unfold binary_round_aux.
  unfold shr_fexp at 1. cbn [Zdigits2 shr_record_of_loc].
  rewrite (digits2_shlZ m n Hn), Hd.
  replace (fexp prec emax (53 + n + (e - n)) - (e - n))%Z with n
    by (unfold fexp, emin, emax, prec; lia).
  assert (E : shr {| shr_m := Zpos (shlZ m n); shr_r := false; shr_s := false |}
                (e - n) n
              = ({| shr_m := Zpos m; shr_r := false; shr_s := false |}, e)).
  { destruct n as [|n|n]; simpl; try lia.
    - f_equal. lia.
    - rewrite iter_shr_exact. f_equal. lia. }
  rewrite E. cbn [shr_m loc_of_shr_record round_nearest_even].
  unfold shr_fexp. cbn [Zdigits2 shr_record_of_loc]. rewrite Hd.
  replace (fexp prec emax (53 + e) - e)%Z with 0%Z
    by (unfold fexp, emin, emax, prec; lia).
  cbn [shr shr_m].
  replace (e <=? emax - prec)%Z with true
    by (symmetry; apply Z.leb_le; unfold emax, prec; lia).
  reflexivity.
Qed.

Lemma digits2_lower p : (2 ^ (Zpos (digits2_pos p) - 1) <= Zpos p)%Z.
Proof.
  induction p as [p IH|p IH|]; cbn [digits2_pos].
  - rewrite Pos2Z.inj_succ.
    replace (Z.succ (Zpos (digits2_pos p)) - 1)%Z
      with (Z.succ (Zpos (digits2_pos p) - 1)) by lia.
    rewrite Z.pow_succ_r by lia. lia.
  - rewrite Pos2Z.inj_succ.
    replace (Z.succ (Zpos (digits2_pos p)) - 1)%Z
      with (Z.succ (Zpos (digits2_pos p) - 1)) by lia.
    rewrite Z.pow_succ_r by lia. lia.
  - simpl. lia.
Qed.

(** A positive integer below 2^53 has at most 53 bits. *)
Lemma digits2_le_53 p :
  (Zpos p < 9007199254740992)%Z -> (Zpos (digits2_pos p) <= 53)%Z.
Proof.
  intros H. pose proof (digits2_lower p) as L.
  destruct (Z.le_gt_cases (Zpos (digits2_pos p)) 53) as [|G]; trivial.
  assert (P : (2 ^ 53 <= 2 ^ (Zpos (digits2_pos p) - 1))%Z)
    by (apply Z.pow_le_mono_r; lia).
  change (2 ^ 53)%Z with 9007199254740992%Z in P. lia.
Qed.

(** The binary64 form of [v * 2^K] at exponent [-K], for [v] of at most 53
    bits: the mantissa [v] shifted to 53 bits. *)
Lemma binary_round_int s v K :
  (Zpos (digits2_pos v) <= 53)%Z -> (0 <= K <= 1000)%Z ->
  binary_round prec emax s (shlZ v K) (- K)
  = S754_finite s (shlZ v (53 - Zpos (digits2_pos v)))
      (Zpos (digits2_pos v) - 53).
Proof.
  intros Hd HK. unfold binary_round.
  rewrite (digits2_shlZ v K) by lia.
  set (d := Zpos (digits2_pos v)) in *.
  assert (Hd1 : (1 <= d)%Z) by (unfold d; lia).
  replace (fexp prec emax (d + K + - K)) with (d - 53)%Z
    by (unfold fexp, emin, emax, prec; lia).
  assert (Hm : Zpos (digits2_pos (shlZ v (53 - d))) = 53%Z)
    by (rewrite digits2_shlZ by lia; fold d; lia).
  unfold shl_align.
  destruct (d - 53 - - K)%Z as [|t|t] eqn:Et.
  - replace (shlZ v K) with (shlZ (shlZ v (53 - d)) 0)
      by (rewrite shlZ_shlZ by lia; f_equal; lia).
    replace (- K)%Z with (d - 53 - 0)%Z by lia.
    apply round_aux_shifted; lia.
  - replace (shlZ v K) with (shlZ (shlZ v (53 - d)) (Zpos t))
      by (rewrite shlZ_shlZ by lia; f_equal; lia).
    replace (- K)%Z with (d - 53 - Zpos t)%Z by lia.
    apply round_aux_shifted; lia.
  - replace (Pos.iter xO (shlZ v K) t) with (shlZ (shlZ v (53 - d)) 0).
    + replace (d - 53)%Z with (d - 53 - 0)%Z at 1 by lia.
      apply round_aux_shifted; lia.
    + change (Pos.iter xO (shlZ v K) t) with (shlZ (shlZ v K) (Zpos t)).
      rewrite !shlZ_shlZ by lia. f_equal. lia.
Qed.

Lemma SFint_pos s v :
  (Zpos (digits2_pos v) <= 53)%Z ->
  binary_round prec emax s v 0
  = S754_finite s (shlZ v (53 - Zpos (digits2_pos v)))
      (Zpos (digits2_pos v) - 53).
Proof.
  intros Hd. exact (binary_round_int s v 0 Hd ltac:(lia)).
Qed.

Lemma SFint_valid z :
  (Z.abs z < 9007199254740992)%Z -> valid_binary (SFint z) = true.
Proof.
  intros H. unfold SFint, binary_normalize.
  destruct z as [|v|v]; trivial;
    (pose proof (digits2_le_53 v ltac:(lia)) as Hd;
     rewrite SFint_pos by exact Hd;
     unfold SpecFloat.valid_binary, bounded, canonical_mantissa;
     rewrite digits2_shlZ by lia;
     apply andb_true_intro; split;
     [apply Z.eqb_eq; unfold fexp, SpecFloat.emin, emax, prec; lia
     |apply Z.leb_le; unfold emax, prec; lia]).
Qed.

Lemma shl_align_fst m ex ez :
  (ez <= ex)%Z -> fst (shl_align m ex ez) = shlZ m (ex - ez).
Proof.
  intros H. unfold shl_align.
  destruct (ez - ex)%Z as [|d|d] eqn:E; try lia; simpl.
  - replace (ex - ez)%Z with 0%Z by lia. reflexivity.
  - replace (ex - ez)%Z with (Zpos d) by lia. reflexivity.
Qed.

Lemma SFint_nonzero s v :
  (Zpos v < 9007199254740992)%Z ->
  SFint (cond_Zopp s (Zpos v))
  = S754_finite s (shlZ v (53 - Zpos (digits2_pos v)))
      (Zpos (digits2_pos v) - 53).
Proof.
  intros H. pose proof (digits2_le_53 v H) as Hd.
  unfold SFint. destruct s; simpl; apply SFint_pos, Hd.
Qed.

(** The difference of two integers below 2^52 in magnitude is computed
    exactly. *)
Lemma SFsub_finite_int sa a sb b :
  (Zpos a < 4503599627370496)%Z -> (Zpos b < 4503599627370496)%Z ->
  SFsub prec emax (SFint (cond_Zopp sa (Zpos a))) (SFint (cond_Zopp sb (Zpos b)))
  = SFint (cond_Zopp sa (Zpos a) - cond_Zopp sb (Zpos b)).
Proof.
  intros Ha Hb.
  rewrite !SFint_nonzero by lia.
  pose proof (digits2_le_53 a ltac:(lia)) as Da.
  pose proof (digits2_le_53 b ltac:(lia)) as Db.
  set (da := Zpos (digits2_pos a)) in *.
  set (db := Zpos (digits2_pos b)) in *.
  assert (Da1 : (1 <= da)%Z) by (unfold da; lia).
  assert (Db1 : (1 <= db)%Z) by (unfold db; lia).
  cbn [SFsub].
  set (ez := Z.min (da - 53) (db - 53)).
  rewrite !shl_align_fst by (unfold ez; lia).
  rewrite !shlZ_shlZ by (unfold ez; lia).
  replace (53 - da + (da - 53 - ez))%Z with (- ez)%Z by lia.
  replace (53 - db + (db - 53 - ez))%Z with (- ez)%Z by lia.
  set (K := (- ez)%Z).
  assert (HK : (0 <= K <= 52)%Z) by (unfold K, ez; lia).
  replace ez with (- K)%Z by (unfold K; lia).
  set (u := (cond_Zopp sa (Zpos a) - cond_Zopp sb (Zpos b))%Z).
  assert (Hu : (Z.abs u < 9007199254740992)%Z)
    by (unfold u; destruct sa, sb; cbn [cond_Zopp]; lia).
  assert (HD : (cond_Zopp sa (Zpos (shlZ a K)) - cond_Zopp sb (Zpos (shlZ b K))
               = u * 2 ^ K)%Z).
  { unfold u. rewrite !Zpos_shlZ by lia. destruct sa, sb; cbn [cond_Zopp]; lia. }
  rewrite HD.
  destruct u as [|v|v] eqn:Eu.
  - reflexivity.
  - replace (Zpos v * 2 ^ K)%Z with (Zpos (shlZ v K))
      by (rewrite Zpos_shlZ by lia; reflexivity).
    cbn [binary_normalize].
    rewrite binary_round_int by (try apply digits2_le_53; lia).
    symmetry. apply (SFint_nonzero false v). lia.
  - replace (Zneg v * 2 ^ K)%Z with (Zneg (shlZ v K))
      by (rewrite <- !Pos2Z.opp_pos, Zpos_shlZ by lia; lia).
    cbn [binary_normalize].
    rewrite binary_round_int by (try apply digits2_le_53; lia).
    symmetry. apply (SFint_nonzero true v). lia.
Qed.

Lemma SFsub_int w z :
  (Z.abs w < 4503599627370496)%Z -> (Z.abs z < 4503599627370496)%Z ->
  SFsub prec emax (SFint w) (SFint z) = SFint (w - z).
Proof.
  intros Hw Hz.
  destruct w as [|a|a], z as [|b|b];
    try exact (SFsub_finite_int false a false b ltac:(lia) ltac:(lia));
    try exact (SFsub_finite_int false a true b ltac:(lia) ltac:(lia));
    try exact (SFsub_finite_int true a false b ltac:(lia) ltac:(lia));
    try exact (SFsub_finite_int true a true b ltac:(lia) ltac:(lia)).
  - reflexivity.
  - change (0 - Zpos b)%Z with (cond_Zopp true (Zpos b)).
    change (Zpos b) with (cond_Zopp false (Zpos b)) at 1.
    rewrite !SFint_nonzero by lia. reflexivity.
  - change (0 - Zneg b)%Z with (cond_Zopp false (Zpos b)).
    change (Zneg b) with (cond_Zopp true (Zpos b)).
    rewrite !SFint_nonzero by lia. reflexivity.
  - rewrite Z.sub_0_r.
    change (Zpos a) with (cond_Zopp false (Zpos a)).
    rewrite !SFint_nonzero by lia. reflexivity.
  - rewrite Z.sub_0_r.
    change (Zneg a) with (cond_Zopp true (Zpos a)).
    rewrite !SFint_nonzero by lia. reflexivity.
Qed.

(** [float(w) - float(z) = float(w - z)] for integers below 2^52 in
    magnitude. *)
Lemma float_of_int_sub w z :
  (Z.abs w < 4503599627370496)%Z -> (Z.abs z < 4503599627370496)%Z ->
  float_of_int w - float_of_int z = float_of_int (w - z).
Proof.
  intros Hw Hz. apply Prim2SF_inj. rewrite sub_spec.
  unfold float_of_int. fold (SFint w) (SFint z) (SFint (w - z)).
  rewrite !Prim2SF_SF2Prim by (apply SFint_valid; lia).
  apply SFsub_int; assumption.
Qed.

Lemma Prim2SF_float_of_int z :
  (Z.abs z < 9007199254740992)%Z -> Prim2SF (float_of_int z) = SFint z.
Proof. intros H. apply Prim2SF_SF2Prim, SFint_valid, H. Qed.

(** The float of an integer below 2^53 is a number, and is zero only for 0. *)
Lemma float_of_int_not_nan z :
  (Z.abs z < 9007199254740992)%Z -> is_nan (float_of_int z) = false.
Proof.
  intros H. rewrite is_nan_spec, (Prim2SF_float_of_int z H).
  destruct z as [|v|v]; trivial;
    [change (Zpos v) with (cond_Zopp false (Zpos v))
    |change (Zneg v) with (cond_Zopp true (Zpos v))];
    rewrite SFint_nonzero by lia; reflexivity.
Qed.

Lemma float_of_int_nonzero z :
  (Z.abs z < 9007199254740992)%Z -> z <> 0%Z ->
  (float_of_int z =? 0) = false.
Proof.
  intros H Hz. rewrite eqb_zero_spec, (Prim2SF_float_of_int z H).
  destruct z as [|v|v]; try contradiction;
    [change (Zpos v) with (cond_Zopp false (Zpos v))
    |change (Zneg v) with (cond_Zopp true (Zpos v))];
    rewrite SFint_nonzero by lia; reflexivity.
Qed.


(* ================================================================= *)
(** * Normalisation and PnL *)

Lemma mapM_Ok {A B} (f : A -> result B) (g : A -> B) (l : list A) :
  (forall x, In x l -> f x = Ok (g x)) -> mapM f l = Ok (map g l).
Proof.
  induction l as [|x l IH]; intros H; simpl; trivial.
  rewrite (H x (or_introl eq_refl)). simpl.
  rewrite IH by (intros y Hy; apply H; right; exact Hy). reflexivity.
Qed.

(** The guard of the ["PnL %"] lambda keeps the division away from zero. *)
Lemma pnl_percent_Ok pnl entry_value :
  pnl_percent pnl entry_value
  = Ok (if entry_value =? 0 then 0 else pnl / entry_value * 100).
Proof.
  unfold pnl_percent, truthy, ne, truediv.
  destruct (entry_value =? 0); reflexivity.
Qed.

Lemma with_pnl_Ok r : with_pnl r = Ok (enriched r).
Proof. unfold with_pnl. rewrite pnl_percent_Ok. reflexivity. Qed.

Lemma record_of_enriched r : record_of_row (enriched r) = r.
Proof. destruct r; reflexivity. Qed.

Lemma unsorted_frame_Ok data : unsorted_frame data = Ok (rows_of data).
Proof.
  unfold unsorted_frame, rows_of.
  destruct (lacks_companies data); trivial.
  destruct data as [d|]; trivial.
  apply mapM_Ok. intros; apply with_pnl_Ok.
Qed.

Lemma process_treasury_data_inv data coin res :
  process_treasury_data data coin res ->
  exists df, res = Ok df /\ sort_values_desc Total_Holdings (rows_of data) df.
Proof.
  unfold process_treasury_data. rewrite unsorted_frame_Ok. trivial.
Qed.

Lemma rows_of_companies d cs :
  companies d = Some cs ->
  rows_of (Some d) = map enriched (map company_record cs).
Proof.
  intros H. unfold rows_of, lacks_companies, falsy_data.
  destruct d as [c t v]. simpl in *. subst c. reflexivity.
Qed.

Lemma company_pnl_percent_Ok r :
  company_pnl_percent r
  = Ok (if Total_Entry_Value r =? 0 then 0
        else (Total_Current_Value r - Total_Entry_Value r)
               / Total_Entry_Value r * 100).
Proof.
  unfold company_pnl_percent, truthy, ne, truediv.
  destruct (Total_Entry_Value r =? 0); reflexivity.
Qed.

(** 0 divided by a number other than 0, times 100, is a zero. *)
Lemma zero_div_mul_100 e :
  is_nan e = false -> (e =? 0) = false -> (0 / e * 100 =? 0) = true.
Proof.
  rewrite is_nan_spec, !eqb_zero_spec, mul_spec, div_spec.
  change (Prim2SF 0) with (S754_zero false).
  change (Prim2SF 100) with (S754_finite false 7036874417766400 (-46)).
  destruct (Prim2SF e) as [s|s| |s m x]; try discriminate; reflexivity.
Qed.

(** A quotient by NaN, times 100, is NaN. *)
Lemma div_nan_mul_100 x e :
  is_nan e = true -> is_nan (x / e * 100) = true.
Proof.
  rewrite !is_nan_spec, mul_spec, div_spec.
  destruct (Prim2SF e) as [s|s| |s m k]; try discriminate. intros _.
  destruct (Prim2SF x) as [sx|sx| |sx mx kx]; reflexivity.
Qed.

(** The table of the combined view, row by row. *)
Lemma display_combined_data_rows (l : list CombinedRow) :
  mapM (fun r =>
          pct <- company_pnl_percent r ;;
          Ok (r, Total_Current_Value r - Total_Entry_Value r, pct)) l
  = Ok (map (fun r =>
               (r, Total_Current_Value r - Total_Entry_Value r,
                if Total_Entry_Value r =? 0 then 0
                else (Total_Current_Value r - Total_Entry_Value r)
                       / Total_Entry_Value r * 100)) l).
Proof.
  apply mapM_Ok. intros x _. rewrite company_pnl_percent_Ok. reflexivity.
Qed.

(** C1, as stated, fails where the difference of the two values is not a
    number: with an entry value of 100 and a current value that is NaN, the
    PnL is filled with 0 and the PnL percent is 0, where
    [(current - entry) / entry * 100] is NaN. *)
Lemma pnl_percent_nan_current :
  read_company nan_current_company
  = Some (mkCompany (Some "N") None (Some "US") (Some 10) (Some 100)
            (Some nan) None) /\
  with_pnl (company_record
              (mkCompany (Some "N") None (Some "US") (Some 10) (Some 100)
                 (Some nan) None))
  = Ok (mkRow "N" "N/A" "US" 10 100 nan 0 0 0) /\
  PnL_pct (mkRow "N" "N/A" "US" 10 100 nan 0 0 0) = 0 /\
  is_nan ((nan - 100) / 100 * 100) = true /\
  (PnL_pct (mkRow "N" "N/A" "US" 10 100 nan 0 0 0)
   =? (nan - 100) / 100 * 100) = false.
Proof. repeat split. Qed.

(** C1, amended.  For a company whose numbers have a reading (floats, and
    integers below 2^52 in magnitude): an entry value that is missing or zero
    gives a PnL percent of 0; otherwise the PnL percent is
    [PnL / entry * 100], where the PnL is [current - entry] with a difference
    that is not a number replaced by 0: it is
    [(current - entry) / entry * 100] whenever that difference is a number,
    and a zero when the difference is not a number and the entry value is
    one; an entry value that is not a number passes the guard and gives a
    PnL percent that is not a number.  On integer fields the PnL is the exact
    difference of the integers, as an integer column has it, and the PnL
    percent is its quotient by the entry value, times 100.  Every row of the
    returned table is the record so enriched of one of the companies; no step
    raises a division error, in a row, in a whole table, or in the
    per-company combined PnL percent of the merged view, which has the same
    guard on the combined totals. *)
Theorem pnl_percent_zero_guard :
  (forall (jc : JsonCompany) (c : Company),
      read_company jc = Some c ->
      exists r : Row,
        with_pnl (company_record c) = Ok r /\
        (json_total_entry_value_usd jc = None -> PnL_pct r = 0) /\
        (json_total_entry_value_usd jc = Some (PyInt 0) -> PnL_pct r = 0) /\
        (forall e, json_total_entry_value_usd jc = Some (PyFloat e) ->
                   (e =? 0) = true -> PnL_pct r = 0) /\
        PnL r
        = fillna0 (get (total_current_value_usd c) 0
                   - get (total_entry_value_usd c) 0) /\
        (forall e, total_entry_value_usd c = Some e ->
                   (e =? 0) = false ->
                   PnL_pct r = PnL r / e * 100 /\
                   (is_nan (get (total_current_value_usd c) 0 - e) = false ->
                    PnL_pct r
                    = (get (total_current_value_usd c) 0 - e) / e * 100) /\
                   (is_nan (get (total_current_value_usd c) 0 - e) = true ->
                    is_nan e = false ->
                    (PnL_pct r =? 0) = true) /\
                   (is_nan e = true -> is_nan (PnL_pct r) = true)) /\
        (forall w z,
            int_field (json_total_current_value_usd jc) = Some w ->
            json_total_entry_value_usd jc = Some (PyInt z) ->
            z <> 0%Z ->
            PnL r = float_of_int (w - z) /\
            PnL_pct r = float_of_int (w - z) / float_of_int z * 100)) /\
  (forall data coin res,
      process_treasury_data data coin res -> exists df, res = Ok df) /\
  (forall d coin cs df,
      companies d = Some cs ->
      process_treasury_data (Some d) coin (Ok df) ->
      forall r, In r df ->
        exists c, In c cs /\ with_pnl (company_record c) = Ok r) /\
  (forall r : CombinedRow,
      exists pct : float,
        company_pnl_percent r = Ok pct /\
        ((Total_Entry_Value r =? 0) = true -> pct = 0) /\
        ((Total_Entry_Value r =? 0) = false ->
         pct = (Total_Current_Value r - Total_Entry_Value r)
                 / Total_Entry_Value r * 100)) /\
  (forall btc_df eth_df,
      btc_df <> [] \/ eth_df <> [] ->
      exists table,
        display_combined_data btc_df eth_df = Some (Ok table) /\
        map (fun row => fst (fst row)) table = combined_df btc_df eth_df /\
        forall r pnl pct,
          In (r, pnl, pct) table ->
          pnl = Total_Current_Value r - Total_Entry_Value r /\
          company_pnl_percent r = Ok pct).
Proof.
  split; [|split; [|split; [|split]]].
  - intros jc c Hread. exists (enriched (company_record c)).
    split; [apply with_pnl_Ok|].
    unfold read_company in Hread.
    destruct (read_field (json_total_holdings jc)) as [h|]; try discriminate.
    destruct (read_field (json_total_entry_value_usd jc)) as [e0|] eqn:He;
      try discriminate.
    destruct (read_field (json_total_current_value_usd jc)) as [c0|] eqn:Hc;
      try discriminate.
    destruct (read_field (json_percentage_of_total_supply jc)) as [p|];
      try discriminate.
    injection Hread as <-. unfold enriched, company_record; simpl.
    split; [|split; [|split; [|split; [|split]]]].
    + intros E. rewrite E in He. injection He as <-. reflexivity.
    + intros E. rewrite E in He. injection He as <-. reflexivity.
    + intros e E Hz. rewrite E in He. injection He as <-. simpl.
      rewrite Hz. reflexivity.
    + reflexivity.
    + intros e -> Hz. simpl. rewrite Hz.
      split; [reflexivity|]. unfold fillna0. split; [|split].
      * intros ->. reflexivity.
      * intros -> Hn. apply zero_div_mul_100; assumption.
      * apply div_nan_mul_100.
    + intros w z Hw Hz Hnz.
      rewrite Hz in He. simpl in He.
      destruct (exact_int z) eqn:Xz; try discriminate.
      injection He as <-. simpl.
      apply Z.ltb_lt in Xz.
      assert (Ec : get c0 0 = float_of_int w /\
                   (Z.abs w < 4503599627370496)%Z).
      { destruct (json_total_current_value_usd jc) as [[w'|x]|];
          simpl in Hw, Hc; try discriminate.
        - injection Hw as ->.
          destruct (exact_int w) eqn:Xw; try discriminate.
          injection Hc as <-. apply Z.ltb_lt in Xw. split; [reflexivity|exact Xw].
        - injection Hw as <-. injection Hc as <-.
          split; [reflexivity|reflexivity]. }
      destruct Ec as [-> Xw].
      rewrite (float_of_int_sub w z Xw Xz).
      rewrite (float_of_int_nonzero z) by (trivial; lia).
      unfold fillna0. rewrite (float_of_int_not_nan (w - z)) by lia.
      split; reflexivity.
  - intros data coin res H.
    destruct (process_treasury_data_inv _ _ _ H) as (df & -> & _). eauto.
  - intros d coin cs df Hc H r Hr.
    destruct (process_treasury_data_inv _ _ _ H) as (df' & E & Hp & _).
    injection E as <-.
    apply (Permutation_in _ (Permutation_sym Hp)) in Hr.
    rewrite (rows_of_companies _ _ Hc), map_map in Hr.
    apply in_map_iff in Hr. destruct Hr as (c & <- & Hin).
    exists c. split; [exact Hin|apply with_pnl_Ok].
  - intros r. eexists. split; [apply company_pnl_percent_Ok|].
    split; intros ->; reflexivity.
  - intros btc_df eth_df Hne.
    eexists. split; [|split].
    + unfold display_combined_data. rewrite display_combined_data_rows.
      destruct btc_df, eth_df; try reflexivity.
      destruct Hne as [H|H]; contradiction.
    + rewrite map_map. simpl. apply map_id.
    + intros r pnl pct Hin. apply in_map_iff in Hin.
      destruct Hin as (x & E & _). injection E as <- <- <-.
      split; [reflexivity|apply company_pnl_percent_Ok].
Qed.

(* ================================================================= *)
(** * sort_values *)



Section SortValuesFacts.
Context {R : Type} (key : R -> float).











End SortValuesFacts.



(* ================================================================= *)
(** * Normalisation: defaults and signs *)

Lemma rows_of_lacking data : lacks_companies data = true -> rows_of data = [].
Proof. unfold rows_of. intros ->. reflexivity. Qed.

Lemma record_of_rows_of d cs :
  companies d = Some cs ->
  map record_of_row (rows_of (Some d)) = map company_record cs.
Proof.
  intros H. rewrite (rows_of_companies _ _ H).
  rewrite (map_map enriched record_of_row).
  erewrite map_ext; [apply map_id|]. intros r. apply record_of_enriched.
Qed.

(** C3.  A field missing from a company entry is read as 0 when it is
    numeric (holdings, entry value, current value, percent of supply) and as
    ["Unknown"] (name, country) or ["N/A"] (symbol) when it is a string; the
    returned frame holds exactly the records so built, one per company; and a
    payload with no company list (no payload, or no ["companies"] key) gives
    the empty frame and no error. *)
Theorem normalization_defaults :
  (forall c : Company,
      (name c = None -> r_Name (company_record c) = "Unknown") /\
      (symbol c = None -> r_Symbol (company_record c) = "N/A") /\
      (country c = None -> r_Country (company_record c) = "Unknown") /\
      (total_holdings c = None -> r_Total_Holdings (company_record c) = 0) /\
      (total_entry_value_usd c = None ->
       r_Entry_Value (company_record c) = 0) /\
      (total_current_value_usd c = None ->
       r_Current_Value (company_record c) = 0) /\
      (percentage_of_total_supply c = None ->
       r_Pct_of_Total_Supply (company_record c) = 0)) /\
  (forall d coin cs df,
      companies d = Some cs ->
      process_treasury_data (Some d) coin (Ok df) ->
      Permutation (map company_record cs) (map record_of_row df)) /\
  (forall coin res,
      process_treasury_data None coin res <-> res = Ok []) /\
  (forall d coin res,
      companies d = None ->
      process_treasury_data (Some d) coin res <-> res = Ok []).
Proof.
  assert (Hnone : forall data coin res,
             lacks_companies data = true ->
             process_treasury_data data coin res <-> res = Ok []).
  { intros data coin res Hl. unfold process_treasury_data.
    rewrite unsorted_frame_Ok, (rows_of_lacking _ Hl). split.
    - intros (df & -> & Hp & _). apply Permutation_nil in Hp.
      subst df. reflexivity.
    - intros ->. exists []. repeat split; constructor. }
  split; [|split; [|split]].
  - intros c. unfold company_record; simpl.
    repeat split; intros ->; reflexivity.
  - intros d coin cs df Hc H.
    destruct (process_treasury_data_inv _ _ _ H) as (df' & E & Hp & _).
    injection E as <-.
    rewrite <- (record_of_rows_of _ _ Hc). apply Permutation_map, Hp.
  - intros coin res. apply Hnone. reflexivity.
  - intros d coin res Hc. apply Hnone.
    unfold lacks_companies. rewrite Hc. apply orb_true_r.
Qed.

(** C6, as stated, fails: normalisation copies the numbers it is given, so a
    payload that reports negative holdings yields a row of negative holdings
    (and it is the only frame the payload yields). *)
Lemma normalized_negative_holdings :
  process_treasury_data (Some negative_payload) "bitcoin" (Ok [negative_row]) /\
  (forall res,
      process_treasury_data (Some negative_payload) "bitcoin" res ->
      res = Ok [negative_row]) /\
  (Total_Holdings negative_row <? 0) = true /\
  (0 <=? Total_Holdings negative_row) = false.
Proof.
  assert (E : unsorted_frame (Some negative_payload) = Ok [negative_row])
    by reflexivity.
  unfold process_treasury_data. rewrite E.
  split; [|split; [|split; reflexivity]].
  - exists [negative_row]. split; [reflexivity|].
    split; [apply Permutation_refl|repeat constructor].
  - intros res (df & -> & Hp & _).
    apply Permutation_length_1_inv in Hp. subst df. reflexivity.
Qed.

Lemma nonneg_field_get field :
  nonneg_field field = true -> (0 <=? get field 0) = true.
Proof. destruct field; simpl; trivial. Qed.

(** C6, amended.  When every holdings, entry-value and current-value number
    present in the company list is non-negative, so are these three fields in
    every row of the normalized and enriched table; a missing number becomes
    0. *)
Theorem normalized_nonnegative d coin cs df :
  companies d = Some cs ->
  forallb nonneg_company cs = true ->
  process_treasury_data (Some d) coin (Ok df) ->
  forall r, In r df ->
    (0 <=? Total_Holdings r) = true /\
    (0 <=? Entry_Value r) = true /\
    (0 <=? Current_Value r) = true.
Proof.
  intros Hc Hn H r Hr.
  destruct (process_treasury_data_inv _ _ _ H) as (df' & E & Hp & _).
  injection E as <-.
  apply (Permutation_in _ (Permutation_sym Hp)) in Hr.
  rewrite (rows_of_companies _ _ Hc), map_map in Hr.
  apply in_map_iff in Hr. destruct Hr as (c & <- & Hin).
  rewrite forallb_forall in Hn. specialize (Hn c Hin).
  unfold nonneg_company in Hn.
  apply andb_prop in Hn. destruct Hn as [Hn H3].
  apply andb_prop in Hn. destruct Hn as [H1 H2].
  unfold enriched, company_record; simpl.
  auto using nonneg_field_get.
Qed.

Lemma nonneg_frame_returned :
  process_treasury_data (Some nonneg_payload) "bitcoin" (Ok nonneg_frame).
Proof.
  unfold process_treasury_data.
  change (unsorted_frame (Some nonneg_payload)) with (Ok nonneg_rows).
  exists nonneg_frame. split; [reflexivity|]. split.
  - apply perm_swap.
  - repeat constructor.
Defined.

Lemma normalized_nonnegative_witness :
  (0 <=? Total_Holdings (hd (mkRow "" "" "" 0 0 0 0 0 0) nonneg_frame)) = true /\
  (0 <=? Entry_Value (hd (mkRow "" "" "" 0 0 0 0 0 0) nonneg_frame)) = true /\
  (0 <=? Current_Value (hd (mkRow "" "" "" 0 0 0 0 0 0) nonneg_frame)) = true.
Proof.
  apply (normalized_nonnegative nonneg_payload "bitcoin"
           (get (companies nonneg_payload) []) nonneg_frame).
  - reflexivity.
  - reflexivity.
  - exact nonneg_frame_returned.
  - simpl. auto.
Defined.

(* ================================================================= *)
(** * Supply dominance *)




(** The cells added from left to right are one way of adding them up. *)
Lemma fold_left_adds_up l : forall l0 acc,
  adds_up l0 acc -> adds_up (l0 ++ l) (fold_left add l acc).
Proof.
  induction l as [|x l IH]; intros l0 acc H; simpl.
  - rewrite app_nil_r. exact H.
  - replace (l0 ++ x :: l)%list with ((l0 ++ [x]) ++ l)%list
      by (rewrite <- app_assoc; reflexivity).
    apply IH. apply adds_app; [exact H|apply adds_one].
Qed.

Lemma series_sum_admissible cells : Series_sum cells (series_sum cells).
Proof.
  unfold Series_sum, series_sum.
  apply (fold_left_adds_up _ [] 0 adds_nil).
Qed.









(** Two groupings of one sum: ten cells of 0.1 add up to less than 1 from
    left to right, and to 1 when the first eight are added in pairs and the
    last two after them, as a reduction in blocks of eight does; both are
    sums that [Series_sum] admits. *)
Example Series_sum_ten_tenths :
  Series_sum ten_tenths (series_sum ten_tenths) /\
  (series_sum ten_tenths <? 1) = true /\
  Series_sum ten_tenths 1.
Proof.
  split; [apply series_sum_admissible|]. split; [reflexivity|].
  unfold Series_sum.
  set (x := 1 / 10).
  assert (P2 : adds_up ([x] ++ [x]) (x + x))
    by (apply adds_app; apply adds_one).
  pose proof (adds_app _ _ _ _ P2 P2) as P4.
  pose proof (adds_app _ _ _ _ P4 P4) as P8.
  pose proof (adds_app _ _ _ _ P8 (adds_one x)) as P9.
  pose proof (adds_app _ _ _ _ P9 (adds_one x)) as P10.
  exact P10.
Qed.

(* ================================================================= *)
(** * The outer merge *)

Section ListFacts.
Context {A B : Type}.

Lemma filter_flat_map (p : B -> bool) (f : A -> list B) l :
  filter p (flat_map f l) = flat_map (fun x => filter p (f x)) l.
Proof.
  induction l as [|x l IH]; simpl; trivial.
  rewrite filter_app, IH. reflexivity.
Qed.

Lemma filter_map_comm (p : B -> bool) (f : A -> B) l :
  filter p (map f l) = map f (filter (fun x => p (f x)) l).
Proof.
  induction l as [|x l IH]; simpl; trivial.
  destruct (p (f x)); simpl; rewrite IH; reflexivity.
Qed.

Lemma find_map (p : B -> bool) (f : A -> B) l :
  find p (map f l) = option_map f (find (fun x => p (f x)) l).
Proof.
  induction l as [|x l IH]; simpl; trivial.
  destruct (p (f x)); simpl; trivial.
Qed.

Lemma flat_map_if_filter (c : A -> bool) (f : A -> list B) l :
  flat_map (fun x => if c x then f x else []) l = flat_map f (filter c l).
Proof.
  induction l as [|x l IH]; simpl; trivial.
  destruct (c x); simpl; rewrite IH; reflexivity.
Qed.

Lemma filter_nil_iff (p : A -> bool) l :
  filter p l = [] <-> forall x, In x l -> p x = false.
Proof.
  induction l as [|x l IH]; simpl.
  - split; [intros _ x []|trivial].
  - destruct (p x) eqn:E; split.
    + discriminate.
    + intros H. rewrite (H x (or_introl eq_refl)) in E. discriminate.
    + intros H y [<-|Hy]; [exact E|]. apply IH; assumption.
    + intros H. apply IH. intros y Hy. apply H. right. exact Hy.
Qed.

Lemma filter_twice (p q : A -> bool) l :
  filter p (filter q l) = filter (fun x => q x && p x) l.
Proof.
  induction l as [|x l IH]; simpl; trivial.
  destruct (q x); simpl; [destruct (p x)|]; rewrite IH; reflexivity.
Qed.

End ListFacts.

(** In a list without two elements of the same key, a test that singles out
    one key selects at most one element: the one [find] returns. *)
Lemma filter_unique {A K : Type} (key : A -> K) (t : A -> bool) l :
  NoDup (map key l) ->
  (forall x y, t x = true -> t y = true -> key x = key y) ->
  filter t l = match find t l with Some a => [a] | None => [] end.
Proof.
  intros Hn Ht. induction l as [|x l IH]; simpl; trivial.
  inversion Hn as [|? ? Hx Hl]; subst.
  destruct (t x) eqn:E.
  - f_equal. apply filter_nil_iff. intros y Hy.
    destruct (t y) eqn:Ey; trivial.
    exfalso. apply Hx. rewrite (Ht x y E Ey). apply in_map, Hy.
  - apply IH, Hl.
Qed.

Lemma key_eqb_eq k1 k2 : key_eqb k1 k2 = true <-> k1 = k2.
Proof.
  destruct k1 as [[c1 s1] n1], k2 as [[c2 s2] n2]. simpl.
  rewrite !andb_true_iff, !String.eqb_eq. split.
  - intros [[-> ->] ->]. reflexivity.
  - intros H. injection H as -> -> ->. auto.
Qed.

Lemma key_eqb_refl k : key_eqb k k = true.
Proof. apply key_eqb_eq. reflexivity. Qed.

Lemma same_key_spec l r : same_key l r = key_eqb (a_key l) (a_key r).
Proof. reflexivity. Qed.

Section MergeOuter.
Variable k : string * string * string.
Variables left right : list AssetRow.
Hypothesis left_unique : NoDup (map a_key left).
Hypothesis right_unique : NoDup (map a_key right).

Let at_k (a : AssetRow) : bool := key_eqb (a_key a) k.
Let m_at_k (m : MergedRow) : bool := key_eqb (m_key m) k.

Let at_k_key x y : at_k x = true -> at_k y = true -> a_key x = a_key y.
Proof.
  unfold at_k. rewrite !key_eqb_eq. congruence.
Qed.

Let partners (l : AssetRow) : list MergedRow :=
  match filter (same_key l) right with
  | [] => [left_only l]
  | ps => map (both l) ps
  end.

Lemma partners_key l m : In m (partners l) -> m_key m = a_key l.
Proof.
  unfold partners. destruct (filter (same_key l) right) as [|r rs].
  - intros [<-|[]]. reflexivity.
  - intros H. apply in_map_iff in H. destruct H as (r' & <- & _). reflexivity.
Qed.

Lemma filter_partners l :
  filter m_at_k (partners l) = if at_k l then partners l else [].
Proof.
  unfold at_k. destruct (key_eqb (a_key l) k) eqn:E.
  - apply forallb_filter_id. apply forallb_forall. intros m Hm.
    unfold m_at_k. rewrite (partners_key _ _ Hm). exact E.
  - apply filter_nil_iff. intros m Hm.
    unfold m_at_k. rewrite (partners_key _ _ Hm). exact E.
Qed.

Lemma partners_at_k l :
  at_k l = true ->
  partners l = match find at_k right with
               | Some r => [both l r]
               | None => [left_only l]
               end.
Proof.
  intros Hl. unfold partners.
  assert (E : filter (same_key l) right = filter at_k right).
  { apply filter_ext. intros r. rewrite same_key_spec. unfold at_k in *.
    apply key_eqb_eq in Hl. rewrite Hl.
    destruct (key_eqb k (a_key r)) eqn:E1, (key_eqb (a_key r) k) eqn:E2;
      trivial.
    - apply key_eqb_eq in E1. rewrite <- E1, key_eqb_refl in E2. discriminate.
    - apply key_eqb_eq in E2. rewrite E2, key_eqb_refl in E1. discriminate. }
  rewrite E, (filter_unique a_key at_k right right_unique at_k_key).
  destruct (find at_k right); reflexivity.
Qed.

Lemma unmatched_at_k r :
  at_k r = true ->
  negb (existsb (fun l => same_key l r) left)
  = match find at_k left with Some _ => false | None => true end.
Proof.
  intros Hr. unfold at_k in Hr. apply key_eqb_eq in Hr.
  destruct (find at_k left) as [l|] eqn:F.
  - apply find_some in F. destruct F as [Hin Hl].
    apply negb_false_iff, existsb_exists. exists l. split; [exact Hin|].
    rewrite same_key_spec, Hr. exact Hl.
  - apply negb_true_iff.
    destruct (existsb (fun l => same_key l r) left) eqn:E; trivial.
    apply existsb_exists in E. destruct E as (l & Hin & Hl).
    rewrite same_key_spec, Hr in Hl.
    pose proof (find_none _ _ F l Hin) as N. unfold at_k in N. congruence.
Qed.

(** The rows of the merge that carry the key [k]. *)
Lemma filter_merge_outer :
  filter m_at_k (merge_outer left right)
  = match find at_k left, find at_k right with
    | Some l, Some r => [both l r]
    | Some l, None => [left_only l]
    | None, Some r => [right_only r]
    | None, None => []
    end.
Proof.
  unfold merge_outer. rewrite filter_app.
  fold partners.
  rewrite filter_flat_map.
  rewrite (flat_map_ext _ _ filter_partners).
  rewrite flat_map_if_filter.
  rewrite (filter_unique a_key at_k left left_unique at_k_key).
  rewrite filter_map_comm.
  assert (E : filter (fun r => m_at_k (right_only r))
                (filter (fun r => negb (existsb (fun l => same_key l r) left))
                        right)
              = match find at_k left with
                | Some _ => []
                | None => filter at_k right
                end).
  { rewrite filter_twice.
    destruct (find at_k left) as [l|] eqn:F.
    - apply filter_nil_iff. intros r _.
      change (m_at_k (right_only r)) with (at_k r).
      destruct (at_k r) eqn:Hr; [|apply andb_false_r].
      rewrite (unmatched_at_k r Hr), F. reflexivity.
    - apply filter_ext. intros r.
      change (m_at_k (right_only r)) with (at_k r).
      destruct (at_k r) eqn:Hr; [|apply andb_false_r].
      rewrite (unmatched_at_k r Hr), F. reflexivity. }
  rewrite E.
  rewrite (filter_unique a_key at_k right right_unique at_k_key).
  destruct (find at_k left) as [l|] eqn:F; simpl.
  - apply find_some in F. destruct F as [_ Hl].
    rewrite (partners_at_k l Hl), app_nil_r.
    destruct (find at_k right); reflexivity.
  - destruct (find at_k right); reflexivity.
Qed.

End MergeOuter.

(* ================================================================= *)
(** * The combined table *)

Lemma unique_keys_NoDup ks : unique_keys ks = true -> NoDup ks.
Proof.
  induction ks as [|k ks IH]; simpl; intros H; constructor.
  - apply andb_prop in H. destruct H as [H _].
    apply negb_true_iff in H. intros Hin.
    assert (E : existsb (key_eqb k) ks = true)
      by (apply existsb_exists; exists k; split;
          [exact Hin|apply key_eqb_refl]).
    congruence.
  - apply IH. apply andb_prop in H. apply H.
Qed.

Lemma asset_columns_map df : asset_columns df = map asset_row df.
Proof. destruct df; reflexivity. Qed.

Lemma asset_columns_keys df :
  map a_key (asset_columns df) = map row_key df.
Proof. rewrite asset_columns_map, map_map. reflexivity. Qed.

Lemma find_asset_columns k df :
  find (fun a => key_eqb (a_key a) k) (asset_columns df)
  = option_map asset_row (find_row k df).
Proof. rewrite asset_columns_map. apply find_map. Qed.

Lemma find_row_key k df r : find_row k df = Some r -> row_key r = k.
Proof.
  intros H. apply find_some in H. destruct H as [_ H].
  apply key_eqb_eq, H.
Qed.

Lemma combined_both k b e :
  row_key b = k ->
  with_totals (fillna_row (both (asset_row b) (asset_row e)))
  = combined_row_of k (Some b) (Some e).
Proof. intros <-. reflexivity. Qed.

Lemma combined_left_only k b :
  row_key b = k ->
  with_totals (fillna_row (left_only (asset_row b)))
  = combined_row_of k (Some b) None.
Proof. intros <-. reflexivity. Qed.

Lemma combined_right_only k e :
  row_key e = k ->
  with_totals (fillna_row (right_only (asset_row e)))
  = combined_row_of k None (Some e).
Proof. intros <-. reflexivity. Qed.

Lemma fillna0_add_zero_r x :
  is_nan x = false -> (fillna0 x + 0 =? x) = true.
Proof.
  intros H. unfold fillna0. rewrite H. apply add_zero_r_eqb, H.
Qed.

Lemma fillna0_add_zero_l x :
  is_nan x = false -> (0 + fillna0 x =? x) = true.
Proof. intros H. rewrite add_comm. apply fillna0_add_zero_r, H. Qed.

(** C2, as stated, fails: rows are not deduplicated, so a key that a table
    carries twice has two rows in the merged table. *)
Lemma combined_df_duplicate_key :
  List.length (filter (has_key ("A", "AAA", "US"))
                 (combined_df duplicate_btc_df []))
  = 2%nat.
Proof. reflexivity. Qed.

(** C2, amended.  When no key occurs twice within a table, the merged table
    has, for every key, exactly one row if the key occurs in either table and
    none otherwise; that row carries each asset's holdings, entry and current
    value (a missing cell read as 0) and exactly 0 in the three fields of an
    asset whose table lacks the key; the combined entry and current values are
    the sums of the two assets' values; and for a company present in one
    table only the combined current value equals that asset's current
    value. *)
Theorem combined_df_outer_join btc_df eth_df :
  unique_keys (map row_key btc_df) = true ->
  unique_keys (map row_key eth_df) = true ->
  (forall k,
      filter (has_key k) (combined_df btc_df eth_df)
      = match find_row k btc_df, find_row k eth_df with
        | None, None => []
        | b, e => [combined_row_of k b e]
        end) /\
  (forall r, In r (combined_df btc_df eth_df) ->
      Total_Entry_Value r = EntryUSD_BTC r + EntryUSD_ETH r /\
      Total_Current_Value r = CurrentUSD_BTC r + CurrentUSD_ETH r) /\
  (forall k b,
      ETH_Held (combined_row_of k (Some b) None) = 0 /\
      EntryUSD_ETH (combined_row_of k (Some b) None) = 0 /\
      CurrentUSD_ETH (combined_row_of k (Some b) None) = 0 /\
      (is_nan (Current_Value b) = false ->
       (Total_Current_Value (combined_row_of k (Some b) None)
        =? Current_Value b) = true)) /\
  (forall k e,
      BTC_Held (combined_row_of k None (Some e)) = 0 /\
      EntryUSD_BTC (combined_row_of k None (Some e)) = 0 /\
      CurrentUSD_BTC (combined_row_of k None (Some e)) = 0 /\
      (is_nan (Current_Value e) = false ->
       (Total_Current_Value (combined_row_of k None (Some e))
        =? Current_Value e) = true)).
Proof.
  intros Hb He.
  apply unique_keys_NoDup in Hb, He.
  rewrite <- asset_columns_keys in Hb, He.
  split; [|split; [|split]].
  - intros k. unfold combined_df.
    rewrite map_map, filter_map_comm.
    rewrite (filter_ext _ (fun m => key_eqb (m_key m) k))
      by (intros m; reflexivity).
    rewrite (filter_merge_outer k _ _ Hb He).
    rewrite !find_asset_columns.
    destruct (find_row k btc_df) as [b|] eqn:Fb;
      destruct (find_row k eth_df) as [e|] eqn:Fe; simpl; trivial.
    + rewrite (combined_both k b e (find_row_key _ _ _ Fb)). reflexivity.
    + rewrite (combined_left_only k b (find_row_key _ _ _ Fb)). reflexivity.
    + rewrite (combined_right_only k e (find_row_key _ _ _ Fe)). reflexivity.
  - intros r Hr. unfold combined_df in Hr.
    apply in_map_iff in Hr. destruct Hr as (m & <- & _).
    split; reflexivity.
  - intros [[c s] n] b. repeat split.
    apply fillna0_add_zero_r.
  - intros [[c s] n] e. repeat split.
    apply fillna0_add_zero_l.
Qed.

Lemma combined_df_outer_join_witness :
  filter (has_key ("A", "N/A", "US")) (combined_df nonneg_frame [])
  = [ mkCombinedRow "A" "N/A" "US" 1000 30000000 50000000 0 0 0
        30000000 50000000 20000000 ].
Proof.
  exact (proj1 (combined_df_outer_join nonneg_frame [] eq_refl eq_refl)
           ("A", "N/A", "US")).
Defined.

(* ================================================================= *)
(** * Exchanging the two tables *)

Lemma flat_map_nil {A C : Type} (l : list A) :
  flat_map (fun _ => @nil C) l = [].
Proof. induction l; simpl; trivial. Qed.

Lemma flat_map_app_perm {A C : Type} (g h : A -> list C) l :
  Permutation (flat_map (fun x => g x ++ h x)%list l)
              (flat_map g l ++ flat_map h l).
Proof.
  induction l as [|x l IH]; simpl; trivial.
  rewrite <- !app_assoc.
  apply Permutation_app_head.
  eapply perm_trans; [apply Permutation_app_head, IH|].
  rewrite !app_assoc. apply Permutation_app_tail, Permutation_app_comm.
Qed.

Lemma flat_map_singleton_if {A C : Type} (t : A -> bool) (f : A -> C) l :
  flat_map (fun x => if t x then [f x] else []) l = map f (filter t l).
Proof.
  induction l as [|x l IH]; simpl; trivial.
  destruct (t x); simpl; rewrite IH; reflexivity.
Qed.

(** Pairing every [a] with its partners among [R] lists the same pairs as
    pairing every [b] with its partners among [L]. *)
Lemma join_comm {A B C : Type} (f : A -> B -> C) (t : A -> B -> bool) L R :
  Permutation
    (flat_map (fun a => map (f a) (filter (t a) R)) L)
    (flat_map (fun b => map (fun a => f a b) (filter (fun a => t a b) L)) R).
Proof.
  induction L as [|a L IH]; simpl.
  - rewrite flat_map_nil. constructor.
  - eapply perm_trans; [apply Permutation_app_head, IH|].
    rewrite <- (flat_map_singleton_if (t a) (f a) R).
    eapply perm_trans; [apply Permutation_sym, flat_map_app_perm|].
    erewrite flat_map_ext; [apply Permutation_refl|].
    intros b. simpl. destruct (t a b); reflexivity.
Qed.

Lemma same_key_sym l r : same_key l r = same_key r l.
Proof.
  unfold same_key.
  rewrite (String.eqb_sym (a_Company l)), (String.eqb_sym (a_Symbol l)),
    (String.eqb_sym (a_Country l)). reflexivity.
Qed.

Lemma same_key_eq l r :
  same_key l r = true ->
  a_Company l = a_Company r /\ a_Symbol l = a_Symbol r
  /\ a_Country l = a_Country r.
Proof.
  unfold same_key. rewrite !andb_true_iff, !String.eqb_eq. tauto.
Qed.

Lemma m_swap_both l r : same_key r l = true -> m_swap (both r l) = both l r.
Proof.
  intros H. apply same_key_eq in H. destruct H as (H1 & H2 & H3).
  unfold m_swap, both; simpl. rewrite H1, H2, H3. reflexivity.
Qed.

Lemma swap_with_totals m :
  swap_assets (with_totals (fillna_row m)) = with_totals (fillna_row (m_swap m)).
Proof.
  unfold swap_assets, with_totals, fillna_row, m_swap; simpl.
  rewrite (add_comm (fillna0 (m_EntryUSD_ETH m))),
    (add_comm (fillna0 (m_CurrentUSD_ETH m))).
  reflexivity.
Qed.

Lemma existsb_filter {A : Type} (p : A -> bool) l :
  existsb p l = match filter p l with [] => false | _ => true end.
Proof.
  induction l as [|x l IH]; simpl; trivial.
  destruct (p x); simpl; trivial.
Qed.

Lemma existsb_pointwise {A : Type} (p q : A -> bool) l :
  (forall x, p x = q x) -> existsb p l = existsb q l.
Proof.
  intros H. induction l as [|x l IH]; simpl; trivial.
  rewrite H, IH. reflexivity.
Qed.

Lemma filter_perm {A : Type} (p : A -> bool) l l' :
  Permutation l l' -> Permutation (filter p l) (filter p l').
Proof.
  induction 1 as [|x l l' _ IH|x y l|l l' l'' _ IH1 _ IH2]; simpl.
  - constructor.
  - destruct (p x); [apply perm_skip|]; exact IH.
  - destruct (p x), (p y); try apply Permutation_refl. apply perm_swap.
  - eapply perm_trans; eassumption.
Qed.

(** The merge, with its three kinds of rows listed apart. *)
Lemma merge_outer_parts left right :
  Permutation (merge_outer left right)
    (flat_map (fun l => map (both l) (filter (same_key l) right)) left
     ++ map left_only
          (filter (fun l => negb (existsb (same_key l) right)) left)
     ++ map right_only
          (filter (fun r => negb (existsb (fun l => same_key l r) left))
                  right)).
Proof.
  unfold merge_outer. rewrite app_assoc. apply Permutation_app_tail.
  induction left as [|l left IH]; simpl; trivial.
  rewrite existsb_filter.
  destruct (filter (same_key l) right) as [|p ps]; simpl.
  - apply Permutation_cons_app, IH.
  - apply perm_skip. rewrite <- app_assoc.
    apply Permutation_app_head, IH.
Qed.

Lemma merge_outer_swap left right :
  Permutation (map m_swap (merge_outer right left)) (merge_outer left right).
Proof.
  eapply perm_trans;
    [apply Permutation_map, merge_outer_parts|].
  eapply perm_trans; [|apply Permutation_sym, merge_outer_parts].
  rewrite !map_app.
  apply Permutation_app.
  - rewrite flat_map_concat_map, concat_map, map_map,
      <- flat_map_concat_map.
    eapply perm_trans; [|apply Permutation_sym, join_comm].
    erewrite flat_map_ext; [apply Permutation_refl|].
    intros r. simpl. rewrite map_map.
    rewrite (filter_ext (fun l => same_key l r) (same_key r))
      by (intros; apply same_key_sym).
    apply map_ext_in. intros l Hl.
    apply filter_In in Hl. destruct Hl as [_ Hl].
    apply m_swap_both, Hl.
  - eapply perm_trans; [apply Permutation_app_comm|].
    apply Permutation_app.
    + rewrite map_map. simpl.
      erewrite filter_ext; [apply Permutation_refl|].
      intros l. simpl. f_equal. apply existsb_pointwise.
      intros r. apply same_key_sym.
    + rewrite map_map. simpl.
      erewrite filter_ext; [apply Permutation_refl|].
      intros r. simpl. f_equal. apply existsb_pointwise.
      intros l. apply same_key_sym.
Qed.

(** C7.  Merging the two tables in the other order gives the same combined
    records, in some order: the rows of [pd.merge(eth, btc)] are a
    rearrangement of the rows of [pd.merge(btc, eth)], rows of duplicated keys
    included.  Likewise, handing the two frames to the function in exchanged
    positions gives the same rows with the two assets' column groups
    exchanged.  In particular both orders list, for every company key, the
    same combined entry value, combined current value and combined PnL. *)
Theorem combined_df_commutative :
  (forall btc_df eth_df,
      Permutation (combined_df_other_order btc_df eth_df)
                  (combined_df btc_df eth_df)) /\
  (forall a_df b_df,
      Permutation (map swap_assets (combined_df b_df a_df))
                  (combined_df a_df b_df)) /\
  (forall a_df b_df,
      Permutation
        (map (fun r => (key_of r, Total_Entry_Value r, Total_Current_Value r,
                        Total_PnL r))
             (combined_df b_df a_df))
        (map (fun r => (key_of r, Total_Entry_Value r, Total_Current_Value r,
                        Total_PnL r))
             (combined_df a_df b_df))) /\
  (forall a_df b_df k,
      Permutation
        (map Total_Current_Value
             (filter (has_key k) (combined_df b_df a_df)))
        (map Total_Current_Value
             (filter (has_key k) (combined_df a_df b_df)))).
Proof.
  assert (Hswap : forall a_df b_df,
             Permutation (map swap_assets (combined_df b_df a_df))
                         (combined_df a_df b_df)).
  { intros a_df b_df. unfold combined_df.
    rewrite !map_map.
    rewrite (map_ext _ (fun m => with_totals (fillna_row (m_swap m))))
      by (intros m; apply swap_with_totals).
    rewrite <- (map_map m_swap (fun m => with_totals (fillna_row m))).
    apply Permutation_map, merge_outer_swap. }
  split; [|split; [exact Hswap|split]].
  - intros btc_df eth_df. unfold combined_df_other_order, combined_df.
    apply Permutation_map, Permutation_map, merge_outer_swap.
  - intros a_df b_df.
    eapply perm_trans; [|apply Permutation_map, (Hswap a_df b_df)].
    rewrite map_map. apply Permutation_refl.
  - intros a_df b_df k.
    eapply perm_trans;
      [|apply Permutation_map, (filter_perm (has_key k)),
          (Hswap a_df b_df)].
    rewrite filter_map_comm, map_map. apply Permutation_refl.
Qed.

(* ================================================================= *)
(** * FX rates *)

Lemma normalized_rates_usd rates : lookup (normalized_rates rates) "USD" = Some 1.
Proof. reflexivity. Qed.

Lemma fetched_rates_usd resp n :
  fetched_rates resp = Some n -> lookup n "USD" = Some 1.
Proof.
  unfold fetched_rates.
  destruct resp as [|code payload]; try discriminate.
  destruct (code =? 200)%Z; try discriminate.
  destruct (fx_result payload) as [res|]; try discriminate.
  destruct (fx_rates_field payload) as [rates|]; try discriminate.
  destruct (String.eqb res "success"); try discriminate.
  intros E. injection E as <-. apply normalized_rates_usd.
Qed.

Lemma get_usd_fx_rates_usd now resp self :
  usd_is_one self ->
  lookup (fst (get_usd_fx_rates now resp self)) "USD" = Some 1 /\
  usd_is_one (snd (get_usd_fx_rates now resp self)).
Proof.
  intros [Hr Hc]. unfold get_usd_fx_rates.
  assert (Hrefresh :
    lookup (fst (match fetched_rates resp with
                 | Some normalized =>
                     (normalized, mkTracker (Some (now, normalized)) normalized)
                 | None => (fallback, mkTracker (Some (now, fallback)) fallback)
                 end)) "USD" = Some 1 /\
    usd_is_one (snd (match fetched_rates resp with
                 | Some normalized =>
                     (normalized, mkTracker (Some (now, normalized)) normalized)
                 | None => (fallback, mkTracker (Some (now, fallback)) fallback)
                 end))).
  { destruct (fetched_rates resp) as [n|] eqn:E; simpl.
    - pose proof (fetched_rates_usd _ _ E) as Hn. repeat split; exact Hn.
    - repeat split. }
  destruct (cache_usd_fx_rates self) as [[cache_time data]|]; trivial.
  destruct (now - cache_time <? cache_timeout)%Z; trivial.
  simpl. repeat split; exact Hc.
Qed.

Lemma reachable_usd_is_one self : reachable self -> usd_is_one self.
Proof.
  induction 1 as [|now resp self _ IH].
  - split; [reflexivity|exact I].
  - apply get_usd_fx_rates_usd, IH.
Qed.

(** C9.  The table set by [__init__], the table built from a fetch, the
    fallback table, and the table of every state the tracker reaches all map
    USD to exactly 1.0, and so does every table [get_usd_fx_rates] returns;
    hence converting any value to ["USD"] returns it unchanged. *)
Theorem usd_rate_identity :
  lookup (fx_rates init) "USD" = Some 1 /\
  (forall rates, lookup (normalized_rates rates) "USD" = Some 1) /\
  lookup fallback "USD" = Some 1 /\
  (forall self, reachable self -> lookup (fx_rates self) "USD" = Some 1) /\
  (forall self now resp,
      reachable self ->
      lookup (fst (get_usd_fx_rates now resp self)) "USD" = Some 1) /\
  (forall self x, reachable self -> convert self x "USD" = x).
Proof.
  split; [reflexivity|]. split; [exact normalized_rates_usd|].
  split; [reflexivity|]. split; [|split].
  - intros self H. apply (reachable_usd_is_one self H).
  - intros self now resp H.
    apply get_usd_fx_rates_usd, reachable_usd_is_one, H.
  - intros self x H. unfold convert, dict_get.
    rewrite (proj1 (reachable_usd_is_one self H)). simpl.
    apply mul_one_r.
Qed.

(* ================================================================= *)
(** * format_currency *)

Lemma lookup_None_iff {V} (d : dict V) k :
  lookup d k = None <-> ~ In k (map fst d).
Proof.
  induction d as [|[k' v] d IH]; simpl.
  - split; [intros _ []|trivial].
  - destruct (String.eqb_spec k' k) as [->|Hk]; split.
    + discriminate.
    + intros H. exfalso. apply H. left. reflexivity.
    + intros H [E|Hin]; [contradiction|]. apply IH in H. contradiction.
    + intros H. apply IH. intros Hin. apply H. right. exact Hin.
Qed.

Lemma round_half_even_nonneg num den :
  (0 <= num)%Z -> (0 < den)%Z -> (0 <= round_half_even num den)%Z.
Proof.
  intros Hn Hd. unfold round_half_even.
  assert (0 <= num / den)%Z by (apply Z.div_pos; assumption).
  destruct (2 * (num mod den) ?= den)%Z; try lia.
  destruct (Z.even (num / den)); lia.
Qed.

Lemma hundredths_nonneg m e : (0 <= hundredths m e)%Z.
Proof.
  unfold hundredths. destruct (0 <=? e)%Z eqn:E.
  - apply Z.leb_le in E.
    assert (0 <= 2 ^ e)%Z by (apply Z.pow_nonneg; lia). nia.
  - apply Z.leb_gt in E. apply round_half_even_nonneg; [lia|].
    apply Z.pow_pos_nonneg; lia.
Qed.

(** [round_half_even] gives the integer nearest to [num / den], and the even
    one when two are equally near. *)
Lemma round_half_even_nearest num den :
  (0 <= num)%Z -> (0 < den)%Z ->
  (Z.abs (2 * (round_half_even num den * den - num)) <= den)%Z /\
  (Z.abs (2 * (round_half_even num den * den - num)) = den ->
   Z.even (round_half_even num den) = true).
Proof.
  intros Hn Hd. unfold round_half_even.
  pose proof (Z.div_mod num den ltac:(lia)) as E.
  pose proof (Z.mod_pos_bound num den Hd) as Hr.
  set (q := (num / den)%Z) in *. set (r := (num mod den)%Z) in *.
  assert (Eq : (q * den - num = - r)%Z) by lia.
  assert (Eq1 : ((q + 1) * den - num = den - r)%Z) by lia.
  destruct (Z.compare_spec (2 * r) den) as [H|H|H].
  - destruct (Z.even q) eqn:Ev.
    + rewrite Eq. split; [lia|trivial].
    + rewrite Eq1. split; [lia|].
      intros _. rewrite Z.add_1_r, Z.even_succ, <- Z.negb_even, Ev.
      reflexivity.
  - rewrite Eq. split; lia.
  - rewrite Eq1. split; lia.
Qed.

(** The digits [decimal] writes are the decimal numeral of its argument:
    reading them gives the number back; and [digit] writes the same digit. *)
Lemma decimal_reads_back n :
  option_map N.of_uint (NilZero.uint_of_string (decimal n)) = Some (Z.to_N n).
Proof.
  unfold decimal. rewrite NilZero.usu.
  - simpl. rewrite DecimalN.Unsigned.of_to. reflexivity.
  - destruct (Z.to_N n); [discriminate|apply DecimalPos.Unsigned.to_uint_nonnil].
Qed.

Lemma digit_decimal d :
  (0 <= d <= 9)%Z -> String (digit d) "" = decimal d.
Proof.
  intros H.
  assert (E : d = 0%Z \/ d = 1%Z \/ d = 2%Z \/ d = 3%Z \/ d = 4%Z \/ d = 5%Z
              \/ d = 6%Z \/ d = 7%Z \/ d = 8%Z \/ d = 9%Z) by lia.
  repeat (destruct E as [-> | E]; [reflexivity|]). subst d. reflexivity.
Qed.

(** C8.  [format_currency] multiplies the USD amount by the rate of the
    currency in the FX table (1.0 for a code the table lacks) and puts the
    currency's symbol first, ["$"] for a code outside the symbol map; a NaN or
    zero amount renders as the symbol followed by ["0"]; any other amount is
    rendered with two decimals ([.2f]) in units of 1e9 with suffix ["B"], of
    1e6 with ["M"], of 1e3 with ["K"], or as it is, according to the first of
    the thresholds 1e9, 1e6, 1e3 that the magnitude of the converted amount
    reaches.  Two decimals means: for a finite non-zero number [m * 2^e], the
    sign, then the decimal numeral of the integer nearest to
    [100 * m * 2^e] (the even one of two equally near) with a point before
    its last two digits. *)
Theorem format_currency_spec (self : TreasuryTracker) (value_usd : float)
    (currency : string) :
  let symbol := dict_get symbol_map currency "$" in
  let rate := dict_get (fx_rates self) currency 1 in
  let converted := value_usd * rate in
  ((currency = "USD" -> symbol = "$") /\
   (currency = "EUR" -> symbol = "€") /\
   (currency = "GBP" -> symbol = "£") /\
   (currency = "JPY" -> symbol = "¥") /\
   (currency = "CAD" -> symbol = "C$") /\
   (currency = "AUD" -> symbol = "A$") /\
   (~ In currency ["USD"; "EUR"; "GBP"; "JPY"; "CAD"; "AUD"] ->
    symbol = "$")) /\
  ((forall r, lookup (fx_rates self) currency = Some r -> rate = r) /\
   (lookup (fx_rates self) currency = None -> rate = 1)) /\
  (is_nan value_usd = true \/ (value_usd =? 0) = true ->
   format_currency self value_usd currency = symbol ++ "0") /\
  (is_nan value_usd = false -> (value_usd =? 0) = false ->
   ((1e9 <=? abs converted) = true ->
    format_currency self value_usd currency
    = symbol ++ format_2f (converted / 1e9) ++ "B") /\
   ((1e9 <=? abs converted) = false -> (1e6 <=? abs converted) = true ->
    format_currency self value_usd currency
    = symbol ++ format_2f (converted / 1e6) ++ "M") /\
   ((1e6 <=? abs converted) = false -> (1e3 <=? abs converted) = true ->
    format_currency self value_usd currency
    = symbol ++ format_2f (converted / 1e3) ++ "K") /\
   ((1e3 <=? abs converted) = false ->
    format_currency self value_usd currency
    = symbol ++ format_2f converted)) /\
  (forall y s m e,
      Prim2SF y = S754_finite s m e ->
      exists c : Z,
        (0 <= c)%Z /\
        (0 <= e -> c = 100 * Zpos m * 2 ^ e)%Z /\
        (e < 0 ->
         Z.abs (2 * (c * 2 ^ (- e) - 100 * Zpos m)) <= 2 ^ (- e) /\
         (Z.abs (2 * (c * 2 ^ (- e) - 100 * Zpos m)) = 2 ^ (- e) ->
          Z.even c = true))%Z /\
        format_2f y
        = (if s then "-" else "") ++ decimal (c / 100) ++ "."
            ++ decimal (c / 10 mod 10) ++ decimal (c mod 10)) /\
  (forall y s,
      (Prim2SF y = S754_zero s ->
       format_2f y = (if s then "-" else "") ++ "0.00") /\
      (Prim2SF y = S754_infinity s ->
       format_2f y = (if s then "-" else "") ++ "inf") /\
      (Prim2SF y = S754_nan -> format_2f y = "nan")) /\
  (forall n : Z,
      option_map N.of_uint (NilZero.uint_of_string (decimal n))
      = Some (Z.to_N n)).
Proof.
  intros symbol rate converted.
  split; [|split; [|split; [|split; [|split; [|split]]]]].
  - unfold symbol, dict_get.
    repeat (split; [intros ->; reflexivity|]).
    intros H. rewrite (proj2 (lookup_None_iff symbol_map currency) H).
    reflexivity.
  - unfold rate, dict_get. split; [intros r ->|intros ->]; reflexivity.
  - unfold format_currency. fold symbol.
    intros [H|H]; rewrite H; [|rewrite orb_true_r]; reflexivity.
  - intros Hn Hz. unfold format_currency, convert.
    fold symbol. fold rate. fold converted.
    rewrite Hn, Hz. simpl.
    repeat split.
    + intros ->. reflexivity.
    + intros -> ->. reflexivity.
    + intros H6 H3.
      destruct (1e9 <=? abs converted) eqn:H9.
      * pose proof (leb_trans 1e6 1e9 _ eq_refl H9). congruence.
      * rewrite H6, H3. reflexivity.
    + intros H3.
      destruct (1e9 <=? abs converted) eqn:H9.
      * pose proof (leb_trans 1e3 1e9 _ eq_refl H9). congruence.
      * destruct (1e6 <=? abs converted) eqn:H6.
        -- pose proof (leb_trans 1e3 1e6 _ eq_refl H6). congruence.
        -- rewrite H3. reflexivity.
  - intros y s m e E. exists (hundredths m e).
    pose proof (hundredths_nonneg m e) as H0.
    split; [exact H0|]. split; [|split].
    + intros He. unfold hundredths.
      apply Z.leb_le in He. rewrite He. lia.
    + intros He. unfold hundredths.
      destruct (Z.leb_spec 0 e) as [F|_]; [lia|].
      assert (Hd : (0 < 2 ^ (- e))%Z) by (apply Z.pow_pos_nonneg; lia).
      pose proof (round_half_even_nearest (Zpos m * 100) (2 ^ (- e))
                    ltac:(lia) Hd) as [H1 H2].
      replace (100 * Zpos m)%Z with (Zpos m * 100)%Z by lia.
      split; assumption.
    + unfold format_2f. rewrite E.
      pose proof (Z.mod_pos_bound (hundredths m e / 10) 10 eq_refl) as B1.
      pose proof (Z.mod_pos_bound (hundredths m e) 10 eq_refl) as B2.
      rewrite <- (digit_decimal (hundredths m e / 10 mod 10)) by lia.
      rewrite <- (digit_decimal (hundredths m e mod 10)) by lia.
      reflexivity.
  - intros y s. unfold format_2f.
    repeat split; intros ->; reflexivity.
  - exact decimal_reads_back.
Qed.

Lemma append_inj_l (p a b : string) : p ++ a = p ++ b -> a = b.
Proof.
  induction p as [|c p IH]; simpl; trivial.
  intros H. injection H as H. apply IH, H.
Qed.

(** C10, as stated, fails for a negative amount: at the 0.0 rate the product
    is a negative zero, which [.2f] renders with its sign. *)
Lemma format_currency_negative_at_zero_rate :
  lookup (fx_rates (mkTracker None fallback)) "EUR" = Some 0 /\
  is_nan (-5) = false /\ (-5 =? 0) = false /\
  format_currency (mkTracker None fallback) (-5) "EUR" = "€-0.00" /\
  format_currency (mkTracker None fallback) (-5) "EUR" <> "€0.00".
Proof.
  repeat split; try reflexivity.
  vm_compute. discriminate.
Qed.

(** C10, amended.  For a finite non-zero amount and a currency whose rate in
    the table is the 0.0 sentinel, [format_currency] returns the symbol
    followed by ["0.00"] when the amount is positive and by ["-0.00"] when it
    is negative; either differs from the symbol followed by ["0"] that a zero
    or NaN amount gets. *)
Theorem format_currency_zero_rate (self : TreasuryTracker) (value_usd : float)
    (currency : string) :
  lookup (fx_rates self) currency = Some 0 ->
  is_finite value_usd = true ->
  (value_usd =? 0) = false ->
  format_currency self value_usd currency
  = dict_get symbol_map currency "$"
      ++ (if value_usd <? 0 then "-0.00" else "0.00") /\
  format_currency self value_usd currency
  <> dict_get symbol_map currency "$" ++ "0" /\
  format_currency self 0 currency = dict_get symbol_map currency "$" ++ "0" /\
  format_currency self nan currency = dict_get symbol_map currency "$" ++ "0".
Proof.
  intros Hrate Hfin Hz.
  assert (Hv : exists s m e, Prim2SF value_usd = S754_finite s m e).
  { rewrite is_finite_spec in Hfin. rewrite eqb_zero_spec in Hz.
    destruct (Prim2SF value_usd) as [s|s| |s m e]; try discriminate.
    eauto. }
  destruct Hv as (s & m & e & Hv).
  assert (E : format_currency self value_usd currency
              = dict_get symbol_map currency "$"
                  ++ (if value_usd <? 0 then "-0.00" else "0.00")).
  { unfold format_currency, convert, dict_get.
    rewrite (is_finite_not_nan _ Hfin), Hz, Hrate. simpl.
    pose proof (mul_zero_r_finite _ _ _ _ Hv) as Hm.
    assert (Ha : Prim2SF (abs (value_usd * 0)) = S754_zero false)
      by (rewrite abs_spec, Hm; reflexivity).
    rewrite !leb_spec, Ha.
    change (SFleb (Prim2SF 1e9) (S754_zero false)) with false.
    change (SFleb (Prim2SF 1e6) (S754_zero false)) with false.
    change (SFleb (Prim2SF 1e3) (S754_zero false)) with false.
    cbv iota. unfold format_2f. rewrite Hm.
    rewrite (ltb_zero_finite _ _ _ _ Hv).
    destruct s; reflexivity. }
  split; [exact E|]. split; [|split; reflexivity].
  rewrite E. intros H. apply append_inj_l in H.
  destruct (value_usd <? 0); discriminate.
Qed.

Lemma format_currency_zero_rate_witness :
  format_currency (mkTracker None fallback) 1500 "EUR" = "€0.00".
Proof.
  exact (proj1 (format_currency_zero_rate (mkTracker None fallback) 1500 "EUR"
                  eq_refl eq_refl eq_refl)).
Defined.

(* ================================================================= *)
(** * The claims at sample inputs *)

Lemma pnl_percent_zero_guard_witness :
  exists r,
    with_pnl (company_record company_A) = Ok r /\
    PnL r = 20000000 /\
    PnL_pct r = (50000000 - 30000000) / 30000000 * 100.
Proof.
  destruct (proj1 pnl_percent_zero_guard json_company_A company_A eq_refl)
    as (r & H & _ & _ & _ & _ & H4 & H5).
  exists r. split; [exact H|]. split.
  - exact (proj1 (H5 50000000%Z 30000000%Z eq_refl eq_refl
                    ltac:(discriminate))).
  - exact (proj1 (proj2 (H4 30000000 eq_refl eq_refl)) eq_refl).
Defined.

Lemma normalization_defaults_witness :
  r_Name (company_record blank_company) = "Unknown" /\
  r_Symbol (company_record blank_company) = "N/A" /\
  r_Total_Holdings (company_record blank_company) = 0.
Proof.
  destruct (proj1 normalization_defaults blank_company)
    as (H1 & H2 & _ & H4 & _).
  split; [exact (H1 eq_refl)|]. split; [exact (H2 eq_refl)|exact (H4 eq_refl)].
Defined.



Lemma format_currency_spec_witness :
  format_currency
    (snd (get_usd_fx_rates 0
            (Response 200
               (mkFxPayload (Some "success") (Some [("EUR", 92 / 100)])))
            init))
    1500 "EUR"
  = "€" ++ format_2f (1500 * (92 / 100) / 1e3) ++ "K" /\
  format_2f (1500 * (92 / 100) / 1e3) = "1.38" /\
  format_currency init 0 "XYZ" = "$0".
Proof.
  pose proof (format_currency_spec
                (snd (get_usd_fx_rates 0
                        (Response 200
                           (mkFxPayload (Some "success")
                              (Some [("EUR", 92 / 100)])))
                        init))
                1500 "EUR") as H1.
  pose proof (format_currency_spec init 0 "XYZ") as H2.
  cbv zeta in H1, H2.
  destruct H1 as (_ & _ & _ & H1 & _). destruct H2 as (_ & _ & H2 & _).
  split; [|split].
  - destruct (H1 eq_refl eq_refl) as (_ & _ & HK & _).
    exact (HK eq_refl eq_refl).
  - reflexivity.
  - exact (H2 (or_intror eq_refl)).
Defined.

Lemma usd_rate_identity_witness :
  convert (snd (get_usd_fx_rates 0 RequestFailed init)) 1500 "USD" = 1500.
Proof.
  exact (proj2 (proj2 (proj2 (proj2 (proj2 usd_rate_identity))))
           (snd (get_usd_fx_rates 0 RequestFailed init)) 1500
           (reachable_fetch 0 RequestFailed init reachable_init)).
Defined.

(** The specification's sample renderings. *)
Example format_currency_samples :
  format_currency init 999 "USD" = "$999.00" /\
  format_currency init 1500 "USD" = "$1.50K" /\
  format_currency init 2500000 "USD" = "$2.50M" /\
  format_currency init 3200000000 "USD" = "$3.20B" /\
  format_currency init 50000000 "USD" = "$50.00M" /\
  format_currency init 0.125 "JPY" = "¥0.12" /\
  format_currency init 0.375 "XYZ" = "$0.38".
Proof. repeat split; vm_compute; reflexivity. Qed.

(** The specification's end-to-end sample: the two companies sorted by
    holdings, their PnL and PnL percent, and the merge with an empty Ethereum
    table. *)
Example end_to_end_sample :
  process_treasury_data (Some nonneg_payload) "bitcoin" (Ok nonneg_frame) /\
  map (fun r => format_2f (PnL_pct r)) nonneg_frame
  = ["66.67"; "-50.00"; "0.00"] /\
  map (fun r => format_currency init (PnL r) "USD") nonneg_frame
  = ["$20.00M"; "$-10.00M"; "$0"] /\
  combined_df nonneg_frame []
  = [ mkCombinedRow "A" "N/A" "US" 1000 30000000 50000000 0 0 0
        30000000 50000000 20000000;
      mkCombinedRow "B" "N/A" "US" 500 20000000 10000000 0 0 0
        20000000 10000000 (-10000000);
      mkCombinedRow "Unknown" "N/A" "Unknown" 0 0 0 0 0 0 0 0 0 ].
Proof.
  split; [exact nonneg_frame_returned|].
  repeat split; vm_compute; reflexivity.
Qed.

(* ================================================================= *)
(** * The payload cache *)

Lemma lookup_dict_set_same {V} (d : dict V) k v :
  lookup (dict_set d k v) k = Some v.
Proof.
  induction d as [|[k' v'] d IH]; simpl.
  - rewrite String.eqb_refl. reflexivity.
  - destruct (String.eqb k' k) eqn:E; simpl.
    + rewrite String.eqb_refl. reflexivity.
    + rewrite E. exact IH.
Qed.

Lemma lookup_dict_set_other {V} (d : dict V) k k' v :
  k <> k' -> lookup (dict_set d k v) k' = lookup d k'.
Proof.
  intros Hk. induction d as [|[k0 v0] d IH]; simpl.
  - destruct (String.eqb_spec k k'); [contradiction|reflexivity].
  - destruct (String.eqb_spec k0 k) as [->|Hk0]; simpl.
    + destruct (String.eqb_spec k k'); [contradiction|reflexivity].
    + destruct (String.eqb k0 k'); [reflexivity|exact IH].
Qed.

Lemma cache_key_inj a b : cache_key a = cache_key b -> a = b.
Proof. apply append_inj_l. Qed.

(** X1.  [get_treasury_data] serves a cached payload only while it is
    younger than the timeout, and then without looking at the network; when
    there is no fresh entry and the request raises or answers with a status
    other than 200, it returns [None] and leaves the cache as it was: a stale
    payload is kept but never served. *)
Theorem get_treasury_data_hit_or_fail :
  (forall now resp cache coin cache_time data,
      lookup cache (cache_key coin) = Some (cache_time, data) ->
      (now - cache_time < cache_timeout)%Z ->
      get_treasury_data now resp cache coin = (Some data, cache)) /\
  (forall now cache coin,
      no_fresh_entry now cache coin = true ->
      get_treasury_data now FetchRaised cache coin = (None, cache)) /\
  (forall now cache coin status_code body,
      no_fresh_entry now cache coin = true ->
      status_code <> 200%Z ->
      get_treasury_data now (FetchStatus status_code body) cache coin
      = (None, cache)).
Proof.
  unfold get_treasury_data, no_fresh_entry. split; [|split].
  - intros now resp cache coin cache_time data -> Hlt.
    apply Z.ltb_lt in Hlt. rewrite Hlt. reflexivity.
  - intros now cache coin H.
    destruct (lookup cache (cache_key coin)) as [[t d]|]; trivial.
    apply negb_true_iff in H. rewrite H. reflexivity.
  - intros now cache coin code body H Hcode.
    apply Z.eqb_neq in Hcode. rewrite Hcode.
    destruct (lookup cache (cache_key coin)) as [[t d]|]; trivial.
    apply negb_true_iff in H. rewrite H. reflexivity.
Qed.

(** X2.  A payload fetched with status 200 is stored and is what every call
    for the same coin returns during the following hour, whatever the
    network would answer then; those calls leave the cache unchanged. *)
Theorem get_treasury_data_round_trip now now' resp' cache coin data :
  no_fresh_entry now cache coin = true ->
  (now' - now < cache_timeout)%Z ->
  let cache' := snd (get_treasury_data now (FetchStatus 200 data) cache coin) in
  fst (get_treasury_data now (FetchStatus 200 data) cache coin) = Some data /\
  get_treasury_data now' resp' cache' coin = (Some data, cache').
Proof.
  intros H Hlt.
  assert (E : get_treasury_data now (FetchStatus 200 data) cache coin
              = (Some data, dict_set cache (cache_key coin) (now, data))).
  { unfold get_treasury_data, no_fresh_entry in *.
    destruct (lookup cache (cache_key coin)) as [[t d]|]; trivial.
    apply negb_true_iff in H. rewrite H. reflexivity. }
  rewrite E. simpl. split; [reflexivity|].
  unfold get_treasury_data. rewrite lookup_dict_set_same.
  apply Z.ltb_lt in Hlt. rewrite Hlt. reflexivity.
Qed.

Lemma get_treasury_data_round_trip_witness :
  get_treasury_data 100 FetchRaised
    (snd (get_treasury_data 0 (FetchStatus 200 nonneg_payload) [] "bitcoin"))
    "bitcoin"
  = (Some nonneg_payload, [(cache_key "bitcoin", (0%Z, nonneg_payload))]).
Proof.
  exact (proj2 (get_treasury_data_round_trip 0 100 FetchRaised [] "bitcoin"
                  nonneg_payload eq_refl eq_refl)).
Defined.

(** X3.  A call for one coin never changes what the cache holds for another
    coin, whatever the call does. *)
Theorem get_treasury_data_other_coin now resp cache coin coin' :
  coin <> coin' ->
  lookup (snd (get_treasury_data now resp cache coin)) (cache_key coin')
  = lookup cache (cache_key coin').
Proof.
  intros Hc.
  assert (Hk : cache_key coin <> cache_key coin')
    by (intros E; apply Hc, cache_key_inj, E).
  unfold get_treasury_data.
  destruct (lookup cache (cache_key coin)) as [[t d]|];
    [destruct (now - t <? cache_timeout)%Z; trivial|];
    (destruct resp as [|code body]; trivial;
     destruct (code =? 200)%Z; trivial;
     apply lookup_dict_set_other, Hk).
Qed.

Lemma get_treasury_data_other_coin_witness :
  lookup
    (snd (get_treasury_data 7200 (FetchStatus 200 nonneg_payload)
            [(cache_key "ethereum", (0%Z, total_only_payload))] "bitcoin"))
    (cache_key "ethereum")
  = Some (0%Z, total_only_payload).
Proof.
  rewrite (get_treasury_data_other_coin 7200 (FetchStatus 200 nonneg_payload)
             [(cache_key "ethereum", (0%Z, total_only_payload))]
             "bitcoin" "ethereum")
    by discriminate.
  reflexivity.
Defined.

(* ================================================================= *)
(** * The FX table over time *)

Lemma get_usd_fx_rates_refresh now resp self :
  no_fresh_rates now self = true ->
  get_usd_fx_rates now resp self
  = match fetched_rates resp with
    | Some normalized =>
        (normalized, mkTracker (Some (now, normalized)) normalized)
    | None => (fallback, mkTracker (Some (now, fallback)) fallback)
    end.
Proof.
  unfold get_usd_fx_rates, no_fresh_rates.
  destruct (cache_usd_fx_rates self) as [[t d]|]; trivial.
  intros H. apply negb_true_iff in H. rewrite H. reflexivity.
Qed.

(** X4.  The table a refresh of [get_usd_fx_rates] produces becomes
    [self.fx_rates] and is served unchanged by every call during the
    following hour, whatever the network would answer then.  In particular a
    failed fetch is cached like a successful one: for an hour the all-zero
    fallback table is returned even when the FX service answers again. *)
Theorem get_usd_fx_rates_served_for_an_hour now now' resp resp' self :
  no_fresh_rates now self = true ->
  (now' - now < cache_timeout)%Z ->
  fx_rates (snd (get_usd_fx_rates now resp self))
  = fst (get_usd_fx_rates now resp self) /\
  get_usd_fx_rates now' resp' (snd (get_usd_fx_rates now resp self))
  = get_usd_fx_rates now resp self /\
  (fetched_rates resp = None ->
   fst (get_usd_fx_rates now' resp' (snd (get_usd_fx_rates now resp self)))
   = fallback).
Proof.
  intros H Hlt. rewrite (get_usd_fx_rates_refresh _ _ _ H).
  apply Z.ltb_lt in Hlt.
  destruct (fetched_rates resp) as [n|]; simpl;
    unfold get_usd_fx_rates; simpl; rewrite Hlt;
    repeat split; try discriminate; reflexivity.
Qed.

Lemma get_usd_fx_rates_served_for_an_hour_witness :
  fst (get_usd_fx_rates 100
         (Response 200 (mkFxPayload (Some "success") (Some [("EUR", 0.5)])))
         (snd (get_usd_fx_rates 0 RequestFailed init)))
  = fallback.
Proof.
  exact (proj2 (proj2 (get_usd_fx_rates_served_for_an_hour 0 100 RequestFailed
                         (Response 200 (mkFxPayload (Some "success")
                                          (Some [("EUR", 0.5)])))
                         init eq_refl eq_refl))
           eq_refl).
Defined.

Lemma normalized_rates_keys rates : map fst (normalized_rates rates) = fx_codes.
Proof.
  unfold normalized_rates. rewrite map_map. simpl.
  repeat match goal with
         | |- context [negb (truthy ?v)] => destruct (negb (truthy v))
         end; reflexivity.
Qed.

(** The rate a fetch gives a currency other than USD: the service's rate, or
    the 0.0 sentinel when the service has none or reports zero. *)
Lemma normalized_rates_entry rates c :
  In c ["EUR"; "GBP"; "JPY"; "CAD"; "AUD"] ->
  lookup (normalized_rates rates) c
  = Some (if dict_get rates c 0 =? 0 then 0 else dict_get rates c 0).
Proof.
  intros H. unfold normalized_rates, truthy. simpl in H.
  repeat (destruct H as [<-|H]; [|]); try contradiction; simpl;
    repeat match goal with
           | |- context [negb (negb (?v =? 0))] => destruct (v =? 0)
           end; simpl; reflexivity.
Qed.

Lemma fetched_rates_keys resp n :
  fetched_rates resp = Some n -> map fst n = fx_codes.
Proof.
  unfold fetched_rates.
  destruct resp as [|code payload]; try discriminate.
  destruct (code =? 200)%Z; try discriminate.
  destruct (fx_result payload) as [res|]; try discriminate.
  destruct (fx_rates_field payload) as [rates|]; try discriminate.
  destruct (String.eqb res "success"); try discriminate.
  intros E. injection E as <-. apply normalized_rates_keys.
Qed.

Lemma get_usd_fx_rates_keys now resp self :
  fx_keys_ok self ->
  map fst (fst (get_usd_fx_rates now resp self)) = fx_codes /\
  fx_keys_ok (snd (get_usd_fx_rates now resp self)).
Proof.
  intros [Hr Hc]. unfold get_usd_fx_rates.
  assert (Hrefresh :
    map fst (fst (match fetched_rates resp with
                  | Some normalized =>
                      (normalized, mkTracker (Some (now, normalized)) normalized)
                  | None => (fallback, mkTracker (Some (now, fallback)) fallback)
                  end)) = fx_codes /\
    fx_keys_ok (snd (match fetched_rates resp with
                  | Some normalized =>
                      (normalized, mkTracker (Some (now, normalized)) normalized)
                  | None => (fallback, mkTracker (Some (now, fallback)) fallback)
                  end))).
  { destruct (fetched_rates resp) as [n|] eqn:E; simpl.
    - pose proof (fetched_rates_keys _ _ E) as Hn.
      repeat split; auto.
    - repeat split; auto. }
  destruct (cache_usd_fx_rates self) as [[cache_time data]|]; trivial.
  destruct (now - cache_time <? cache_timeout)%Z; trivial.
  simpl. repeat split; auto.
Qed.

Lemma reachable_fx_keys_ok self : reachable self -> fx_keys_ok self.
Proof.
  induction 1 as [|now resp self _ IH].
  - split; [left; reflexivity|exact I].
  - apply get_usd_fx_rates_keys, IH.
Qed.

(** X5.  Every table [get_usd_fx_rates] returns, in any state the tracker
    can reach, has exactly the six currency codes USD, EUR, GBP, JPY, CAD,
    AUD; and in the table built from a successful fetch each of the five
    foreign currencies carries the service's rate when that is present and
    non-zero, and the 0.0 sentinel otherwise. *)
Theorem get_usd_fx_rates_table_shape :
  (forall self now resp,
      reachable self ->
      map fst (fst (get_usd_fx_rates now resp self)) = fx_codes) /\
  (forall rates c,
      In c ["EUR"; "GBP"; "JPY"; "CAD"; "AUD"] ->
      (lookup rates c = None -> lookup (normalized_rates rates) c = Some 0) /\
      (forall r, lookup rates c = Some r ->
                 lookup (normalized_rates rates) c
                 = Some (if r =? 0 then 0 else r))).
Proof.
  split.
  - intros self now resp H.
    apply get_usd_fx_rates_keys, reachable_fx_keys_ok, H.
  - intros rates c Hc. rewrite (normalized_rates_entry rates c Hc).
    unfold dict_get. split.
    + intros ->. reflexivity.
    + intros r ->. reflexivity.
Qed.

(* ================================================================= *)
(** * format_currency: unknown codes and negative amounts *)

Lemma existsb_eqb_false c l :
  existsb (String.eqb c) l = false -> ~ In c l.
Proof.
  intros H Hin.
  assert (E : existsb (String.eqb c) l = true)
    by (apply existsb_exists; exists c; split;
        [exact Hin|apply String.eqb_refl]).
  congruence.
Qed.

(** X6.  In every state the tracker can reach, an amount shown in a currency
    code outside the six known ones is rendered exactly as in USD: no
    conversion, ["$"] as symbol.  And the USD rendering is the same in every
    such state, whatever the FX fetches returned. *)
Theorem format_currency_unknown_code self value_usd currency :
  reachable self ->
  existsb (String.eqb currency) fx_codes = false ->
  format_currency self value_usd currency
  = format_currency self value_usd "USD" /\
  format_currency self value_usd "USD" = format_currency init value_usd "USD".
Proof.
  intros Hr Hc. apply existsb_eqb_false in Hc.
  assert (Hrate : lookup (fx_rates self) currency = None).
  { apply lookup_None_iff. intros Hin. apply Hc.
    destruct (proj1 (reachable_fx_keys_ok self Hr)) as [E|E];
      rewrite E in Hin; [|exact Hin].
    destruct Hin as [<-|[]]. left. reflexivity. }
  assert (Hsym : lookup symbol_map currency = None)
    by (apply lookup_None_iff; exact Hc).
  pose proof (proj1 (reachable_usd_is_one self Hr)) as Husd.
  unfold format_currency, convert, dict_get.
  rewrite Hrate, Hsym, Husd. split; reflexivity.
Qed.

Lemma format_currency_unknown_code_witness :
  format_currency (snd (get_usd_fx_rates 0 RequestFailed init)) 1500 "CHF"
  = "$1.50K".
Proof.
  destruct (format_currency_unknown_code
              (snd (get_usd_fx_rates 0 RequestFailed init)) 1500 "CHF"
              (reachable_fetch 0 RequestFailed init reachable_init) eq_refl)
    as [H _].
  rewrite H. reflexivity.
Defined.

(** ** Negation commutes with the operations of [format_currency] *)

Lemma binary_round_aux_opp s m e l :
  binary_round_aux prec emax (negb s) m e l
  = SFopp (binary_round_aux prec emax s m e l).
Proof.
  unfold binary_round_aux.
  destruct (shr_fexp prec emax m e l) as [mrs' e'].
  destruct (shr_fexp prec emax _ e' loc_Exact) as [mrs'' e''].
  destruct (shr_m mrs'') as [|p|p]; simpl; trivial.
  destruct (e'' <=? _)%Z; reflexivity.
Qed.

Lemma SFmul_opp_l a b : SF64mul (SFopp a) b = SFopp (SF64mul a b).
Proof.
  destruct a as [sa|sa| |sa ma ea], b as [sb|sb| |sb mb eb]; simpl; trivial;
    try (destruct sa, sb; reflexivity).
  rewrite <- binary_round_aux_opp. f_equal. destruct sa, sb; reflexivity.
Qed.

Lemma SFdiv_opp_l a b : SF64div (SFopp a) b = SFopp (SF64div a b).
Proof.
  destruct a as [sa|sa| |sa ma ea], b as [sb|sb| |sb mb eb]; simpl; trivial;
    try (destruct sa, sb; reflexivity).
  destruct (SFdiv_core_binary prec emax (Zpos ma) ea (Zpos mb) eb)
    as [[mz ez] lz].
  rewrite <- binary_round_aux_opp. f_equal. destruct sa, sb; reflexivity.
Qed.

Lemma mul_opp_l x y : (- x) * y = - (x * y).
Proof.
  apply Prim2SF_inj. rewrite mul_spec, !opp_spec, mul_spec.
  apply SFmul_opp_l.
Qed.

Lemma div_opp_l x y : (- x) / y = - (x / y).
Proof.
  apply Prim2SF_inj. rewrite div_spec, !opp_spec, div_spec.
  apply SFdiv_opp_l.
Qed.

Lemma abs_opp x : abs (- x) = abs x.
Proof.
  apply Prim2SF_inj. rewrite !abs_spec, opp_spec.
  destruct (Prim2SF x); reflexivity.
Qed.

Lemma is_nan_opp x : is_nan (- x) = is_nan x.
Proof.
  rewrite !is_nan_spec, opp_spec. destruct (Prim2SF x); reflexivity.
Qed.

Lemma eqb_zero_opp x : (- x =? 0) = (x =? 0).
Proof.
  rewrite !eqb_zero_spec, opp_spec. destruct (Prim2SF x); reflexivity.
Qed.

Lemma SFdiv_core_binary_nonneg m1 e1 m2 e2 :
  (0 <= fst (fst (SFdiv_core_binary prec emax (Zpos m1) e1 (Zpos m2) e2)))%Z.
Proof.
  unfold SFdiv_core_binary.
  set (s := (e1 - e2 - _)%Z).
  set (m' := match s with Zpos _ => Z.shiftl (Zpos m1) s | Z0 => Zpos m1
                     | Zneg _ => 0%Z end).
  assert (Hm : (0 <= m')%Z).
  { unfold m'. destruct s; try lia. apply Z.shiftl_nonneg. lia. }
  pose proof (Z_div_mod m' (Zpos m2) eq_refl) as H.
  destruct (Z.div_eucl m' (Zpos m2)) as [q r]. simpl.
  destruct H as [H1 H2]. nia.
Qed.

(** A number divided by a finite non-zero constant is a number. *)
Lemma div_finite_not_nan x y s m e :
  Prim2SF y = S754_finite s m e ->
  is_nan x = false -> is_nan (x / y) = false.
Proof.
  intros Hy. rewrite !is_nan_spec, div_spec, Hy.
  destruct (Prim2SF x) as [sx|sx| |sx mx ex]; simpl; try congruence.
  intros _.
  pose proof (SFdiv_core_binary_nonneg mx ex m e) as H.
  destruct (SFdiv_core_binary prec emax (Zpos mx) ex (Zpos m) e)
    as [[mz ez] lz]. simpl in H.
  pose proof (binary_round_aux_not_nan (xorb sx s) mz ez lz H) as Hn.
  destruct (binary_round_aux prec emax (xorb sx s) mz ez lz); congruence.
Qed.

Lemma append_assoc_string (a b c : string) : (a ++ b) ++ c = a ++ (b ++ c).
Proof. induction a as [|x a IH]; simpl; [|rewrite IH]; reflexivity. Qed.

(** The [.2f] rendering of a number and of its negation differ in the sign
    only. *)
Lemma format_2f_opp y :
  is_nan y = false ->
  exists (s : bool) (digits : string),
    format_2f y = sign_str s ++ digits /\
    format_2f (- y) = sign_str (negb s) ++ digits.
Proof.
  rewrite is_nan_spec. unfold format_2f. rewrite opp_spec.
  destruct (Prim2SF y) as [s|s| |s m e]; simpl; try discriminate; intros _;
    eexists s, _; split; reflexivity.
Qed.

(** X7.  Negating a non-zero amount changes only the sign of its rendering:
    the same symbol, digits and suffix, and the minus sign stands between the
    currency symbol and the digits (["$-10.00M"]). *)
Theorem format_currency_opp self value_usd currency :
  (value_usd =? 0) = false ->
  is_nan (convert self value_usd currency) = false ->
  exists (s : bool) (body : string),
    format_currency self value_usd currency
    = dict_get symbol_map currency "$" ++ sign_str s ++ body /\
    format_currency self (- value_usd) currency
    = dict_get symbol_map currency "$" ++ sign_str (negb s) ++ body.
Proof.
  intros Hz Hc.
  assert (Hn : is_nan value_usd = false).
  { unfold convert in Hc. rewrite is_nan_spec, mul_spec in Hc.
    rewrite is_nan_spec.
    destruct (Prim2SF value_usd); trivial. }
  assert (Eopp : convert self (- value_usd) currency
                 = - convert self value_usd currency)
    by (unfold convert; apply mul_opp_l).
  unfold format_currency.
  rewrite is_nan_opp, eqb_zero_opp, Hn, Hz, Eopp, abs_opp. simpl.
  set (c := convert self value_usd currency) in *.
  set (sym := dict_get symbol_map currency "$").
  rewrite !div_opp_l.
  assert (Hbody : forall y suffix,
             is_nan y = false ->
             exists (s : bool) (body : string),
               sym ++ format_2f y ++ suffix = sym ++ sign_str s ++ body /\
               sym ++ format_2f (- y) ++ suffix
               = sym ++ sign_str (negb s) ++ body).
  { intros y suffix Hy.
    destruct (format_2f_opp y Hy) as (s & digits & E1 & E2).
    exists s, (digits ++ suffix). rewrite E1, E2, !append_assoc_string.
    split; reflexivity. }
  destruct (1e9 <=? abs c);
    [apply Hbody;
     apply (div_finite_not_nan c 1e9 false 8388608000000000 (-23) eq_refl Hc)|].
  destruct (1e6 <=? abs c);
    [apply Hbody;
     eapply (div_finite_not_nan c 1e6); [vm_compute; reflexivity|exact Hc]|].
  destruct (1e3 <=? abs c);
    [apply Hbody;
     eapply (div_finite_not_nan c 1e3); [vm_compute; reflexivity|exact Hc]|].
  destruct (Hbody c "" Hc) as (s & body & E1 & E2).
  exists s, body.
  assert (R : forall t : string, t ++ "" = t)
    by (induction t as [|x t IH]; simpl; [|rewrite IH]; reflexivity).
  rewrite !R in E1, E2. split; assumption.
Qed.

Lemma format_currency_opp_witness :
  exists (s : bool) (body : string),
    format_currency init 10000000 "USD" = "$" ++ sign_str s ++ body /\
    format_currency init (-10000000) "USD" = "$" ++ sign_str (negb s) ++ body.
Proof.
  exact (format_currency_opp init 10000000 "USD" eq_refl eq_refl).
Defined.

(* ================================================================= *)
(** * The merged view: empty tables, lost and invented rows, metrics *)

Lemma merge_outer_nil_r left :
  merge_outer left [] = map left_only left.
Proof.
  unfold merge_outer. simpl. rewrite app_nil_r.
  induction left as [|l left IH]; simpl; [|rewrite IH]; reflexivity.
Qed.

Lemma merge_outer_nil_l right :
  merge_outer [] right = map right_only right.
Proof.
  unfold merge_outer. simpl. f_equal.
  induction right as [|r right IH]; simpl; [|rewrite IH]; reflexivity.
Qed.

Lemma series_sum_zeros {A : Type} (l : list A) :
  series_sum (map (fun _ => 0) l) = 0.
Proof.
  unfold series_sum.
  induction l as [|x l IH]; simpl; trivial.
Qed.

Lemma ltb_zero_not_eqb x : (0 <? x) = true -> (x =? 0) = false.
Proof.
  rewrite ltb_spec, eqb_spec. unfold SFltb, SFeqb.
  rewrite (SFcompare_antisym (Prim2SF 0) (Prim2SF x)).
  destruct (SFcompare (Prim2SF 0) (Prim2SF x)) as [[]|]; simpl; congruence.
Qed.

Lemma portfolio_pnl_pct_Ok total_pnl total_entry :
  portfolio_pnl_pct total_pnl total_entry
  = Ok (if 0 <? total_entry then total_pnl / total_entry * 100 else 0).
Proof.
  unfold portfolio_pnl_pct, truediv.
  destruct (0 <? total_entry) eqn:E; trivial.
  rewrite (ltb_zero_not_eqb _ E). reflexivity.
Qed.

Lemma metrics_without_eth combined :
  (forall r, In r combined -> ETH_Held r = 0) ->
  exists m,
    combined_metrics combined = Ok m /\
    total_companies m = List.length combined /\
    eth_companies m = 0%nat /\ total_eth m = 0.
Proof.
  intros H. unfold combined_metrics.
  rewrite portfolio_pnl_pct_Ok. simpl. eexists. split; [reflexivity|]. simpl.
  split; [reflexivity|]. split.
  - rewrite (proj2 (filter_nil_iff _ combined)); [reflexivity|].
    intros r Hr. rewrite (H r Hr). reflexivity.
  - rewrite (map_ext_in ETH_Held (fun _ => 0) combined H).
    apply series_sum_zeros.
Qed.

Lemma metrics_without_btc combined :
  (forall r, In r combined -> BTC_Held r = 0) ->
  exists m,
    combined_metrics combined = Ok m /\
    total_companies m = List.length combined /\
    btc_companies m = 0%nat /\ total_btc m = 0.
Proof.
  intros H. unfold combined_metrics.
  rewrite portfolio_pnl_pct_Ok. simpl. eexists. split; [reflexivity|]. simpl.
  split; [reflexivity|]. split.
  - rewrite (proj2 (filter_nil_iff _ combined)); [reflexivity|].
    intros r Hr. rewrite (H r Hr). reflexivity.
  - rewrite (map_ext_in BTC_Held (fun _ => 0) combined H).
    apply series_sum_zeros.
Qed.

(** X8.  Merging a table with an empty one keeps every row of the table,
    rows of repeated keys included, each under its own key: the other asset's
    three fields are 0 and the totals are the row's own values plus 0 (the
    order of the merged rows is pandas' and is left open).  The metrics then
    count as many companies as the table has rows and none for the empty
    asset, whose total holding is 0.  With both tables empty nothing is
    built. *)
Theorem combined_df_with_empty_table :
  (forall df,
      Permutation (combined_df df [])
        (map (fun r => combined_row_of (row_key r) (Some r) None) df)) /\
  (forall df,
      Permutation (combined_df [] df)
        (map (fun r => combined_row_of (row_key r) None (Some r)) df)) /\
  (forall df combined,
      Permutation combined (combined_df df []) ->
      exists m,
        combined_metrics combined = Ok m /\
        total_companies m = List.length df /\
        eth_companies m = 0%nat /\ total_eth m = 0) /\
  (forall df combined,
      Permutation combined (combined_df [] df) ->
      exists m,
        combined_metrics combined = Ok m /\
        total_companies m = List.length df /\
        btc_companies m = 0%nat /\ total_btc m = 0) /\
  display_combined_data [] [] = None.
Proof.
  assert (H1 : forall df,
             combined_df df []
             = map (fun r => combined_row_of (row_key r) (Some r) None) df).
  { intros df. unfold combined_df.
    rewrite merge_outer_nil_r, asset_columns_map, !map_map.
    apply map_ext. intros r. reflexivity. }
  assert (H2 : forall df,
             combined_df [] df
             = map (fun r => combined_row_of (row_key r) None (Some r)) df).
  { intros df. unfold combined_df.
    rewrite merge_outer_nil_l, asset_columns_map, !map_map.
    apply map_ext. intros r. reflexivity. }
  split; [intros df; rewrite H1; apply Permutation_refl|].
  split; [intros df; rewrite H2; apply Permutation_refl|].
  split; [|split; [|reflexivity]].
  - intros df combined Hp.
    destruct (metrics_without_eth combined) as (m & Hm & Hn & Hrest).
    + intros r Hr. apply (Permutation_in _ Hp) in Hr. rewrite H1 in Hr.
      apply in_map_iff in Hr. destruct Hr as (x & <- & _). reflexivity.
    + exists m. split; [exact Hm|]. split; [|exact Hrest].
      rewrite Hn, (Permutation_length Hp), H1. apply length_map.
  - intros df combined Hp.
    destruct (metrics_without_btc combined) as (m & Hm & Hn & Hrest).
    + intros r Hr. apply (Permutation_in _ Hp) in Hr. rewrite H2 in Hr.
      apply in_map_iff in Hr. destruct Hr as (x & <- & _). reflexivity.
    + exists m. split; [exact Hm|]. split; [|exact Hrest].
      rewrite Hn, (Permutation_length Hp), H2. apply length_map.
Qed.

(** X9.  The metric rows of the combined view never raise a division error:
    the portfolio PnL percent is [total_pnl / total_entry * 100] when the
    total entry value is greater than 0 and 0 in every other case (zero,
    negative or not a number); the total PnL is the total current value minus
    the total entry value; and neither asset is credited with more companies
    than the table has rows. *)
Theorem combined_metrics_guarded :
  forall combined,
    exists m,
      combined_metrics combined = Ok m /\
      total_pnl m = total_current m - total_entry m /\
      ((0 <? total_entry m) = true ->
       pnl_pct m = total_pnl m / total_entry m * 100) /\
      ((0 <? total_entry m) = false -> pnl_pct m = 0) /\
      (btc_companies m <= total_companies m)%nat /\
      (eth_companies m <= total_companies m)%nat.
Proof.
  intros combined. unfold combined_metrics.
  rewrite portfolio_pnl_pct_Ok. simpl. eexists. split; [reflexivity|]. simpl.
  split; [reflexivity|].
  split; [intros ->; reflexivity|].
  split; [intros ->; reflexivity|].
  split; apply filter_length_le.
Qed.


(** The rows of the outer merge: the pairs of equal key, the left rows
    without a partner, the right rows without a partner. *)
Lemma in_merge_outer m left right :
  In m (merge_outer left right) <->
  (exists l r, In l left /\ In r right /\ same_key l r = true /\ m = both l r)
  \/ (exists l, In l left /\ existsb (same_key l) right = false
                /\ m = left_only l)
  \/ (exists r, In r right
                /\ existsb (fun l => same_key l r) left = false
                /\ m = right_only r).
Proof.
  split.
  - intros H. apply (Permutation_in _ (merge_outer_parts left right)) in H.
    apply in_app_or in H. destruct H as [H|H].
    + left. apply in_flat_map in H. destruct H as (l & Hl & H).
      apply in_map_iff in H. destruct H as (r & <- & Hr).
      apply filter_In in Hr. destruct Hr as [Hr Hk]. eauto 8.
    + apply in_app_or in H. destruct H as [H|H].
      * right. left. apply in_map_iff in H. destruct H as (l & <- & Hl).
        apply filter_In in Hl. destruct Hl as [Hl Hk].
        apply negb_true_iff in Hk. eauto.
      * right. right. apply in_map_iff in H. destruct H as (r & <- & Hr).
        apply filter_In in Hr. destruct Hr as [Hr Hk].
        apply negb_true_iff in Hk. eauto.
  - intros H.
    apply (Permutation_in _ (Permutation_sym (merge_outer_parts left right))).
    apply in_or_app.
    destruct H as [(l & r & Hl & Hr & Hk & ->)
                  |[(l & Hl & Hk & ->)|(r & Hr & Hk & ->)]].
    + left. apply in_flat_map. exists l. split; [exact Hl|].
      apply in_map. apply filter_In. auto.
    + right. apply in_or_app. left. apply in_map. apply filter_In.
      rewrite Hk. auto.
    + right. apply in_or_app. right. apply in_map. apply filter_In.
      rewrite Hk. auto.
Qed.

Lemma same_key_rows b e :
  same_key (asset_row b) (asset_row e) = key_eqb (row_key b) (row_key e).
Proof. reflexivity. Qed.

Lemma existsb_false_forall {A : Type} (p : A -> bool) l :
  existsb p l = false -> forall x, In x l -> p x = false.
Proof.
  intros H x Hx. destruct (p x) eqn:E; trivial.
  assert (existsb p l = true) by (apply existsb_exists; eauto).
  congruence.
Qed.

(** X10.  The merge loses no row and invents none, whether or not keys repeat:
    every row of either table is carried, with its figures, by a combined row
    of its key; and in every combined row the figures of each asset are those
    of a row of that asset's table with the same key, or are all 0 when that
    table has no row of the key; they are never 0 for both assets at once for
    lack of a row. *)
Theorem combined_df_no_row_lost_or_invented btc_df eth_df :
  (forall b, In b btc_df ->
     exists r, In r (combined_df btc_df eth_df) /\ btc_part_of b r) /\
  (forall e, In e eth_df ->
     exists r, In r (combined_df btc_df eth_df) /\ eth_part_of e r) /\
  (forall r, In r (combined_df btc_df eth_df) ->
     ((exists b, In b btc_df /\ btc_part_of b r) \/
      (no_btc_part r /\ forall b, In b btc_df -> row_key b <> key_of r)) /\
     ((exists e, In e eth_df /\ eth_part_of e r) \/
      (no_eth_part r /\ forall e, In e eth_df -> row_key e <> key_of r)) /\
     ((exists b, In b btc_df /\ btc_part_of b r) \/
      (exists e, In e eth_df /\ eth_part_of e r))).
Proof.
  assert (Hin : forall r,
             In r (combined_df btc_df eth_df) <->
             exists m, r = with_totals (fillna_row m) /\
                       In m (merge_outer (map asset_row btc_df)
                                         (map asset_row eth_df))).
  { intros r. unfold combined_df. rewrite !asset_columns_map, map_map.
    rewrite in_map_iff. split; intros (m & H1 & H2); exists m; auto. }
  split; [|split].
  - intros b Hb.
    destruct (existsb (same_key (asset_row b)) (map asset_row eth_df)) eqn:E.
    + apply existsb_exists in E. destruct E as (a & Ha & Hk).
      apply in_map_iff in Ha. destruct Ha as (e & <- & He).
      exists (with_totals (fillna_row (both (asset_row b) (asset_row e)))).
      split; [|repeat split].
      apply Hin. eexists. split; [reflexivity|].
      apply in_merge_outer. left.
      exists (asset_row b), (asset_row e). auto using in_map.
    + exists (with_totals (fillna_row (left_only (asset_row b)))).
      split; [|repeat split].
      apply Hin. eexists. split; [reflexivity|].
      apply in_merge_outer. right. left.
      exists (asset_row b). auto using in_map.
  - intros e He.
    destruct (existsb (fun l => same_key l (asset_row e))
                (map asset_row btc_df)) eqn:E.
    + apply existsb_exists in E. destruct E as (a & Ha & Hk).
      apply in_map_iff in Ha. destruct Ha as (b & <- & Hb).
      exists (with_totals (fillna_row (both (asset_row b) (asset_row e)))).
      split.
      * apply Hin. eexists. split; [reflexivity|].
        apply in_merge_outer. left.
        exists (asset_row b), (asset_row e). auto using in_map.
      * rewrite same_key_rows in Hk. apply key_eqb_eq in Hk.
        unfold eth_part_of. rewrite <- Hk. repeat split.
    + exists (with_totals (fillna_row (right_only (asset_row e)))).
      split; [|repeat split].
      apply Hin. eexists. split; [reflexivity|].
      apply in_merge_outer. right. right.
      exists (asset_row e). auto using in_map.
  - intros r Hr. apply Hin in Hr. destruct Hr as (m & -> & Hm).
    apply in_merge_outer in Hm.
    destruct Hm as [(l & a & Hl & Ha & Hk & ->)
                   |[(l & Hl & Hk & ->)|(a & Ha & Hk & ->)]].
    + apply in_map_iff in Hl. destruct Hl as (b & <- & Hb).
      apply in_map_iff in Ha. destruct Ha as (e & <- & He).
      assert (Pb : btc_part_of b
                     (with_totals (fillna_row (both (asset_row b) (asset_row e)))))
        by (repeat split).
      assert (Pe : eth_part_of e
                     (with_totals (fillna_row (both (asset_row b) (asset_row e))))).
      { rewrite same_key_rows in Hk. apply key_eqb_eq in Hk.
        unfold eth_part_of. rewrite <- Hk. repeat split. }
      split; [left; eauto|]. split; left; eauto.
    + apply in_map_iff in Hl. destruct Hl as (b & <- & Hb).
      assert (Pb : btc_part_of b
                     (with_totals (fillna_row (left_only (asset_row b)))))
        by (repeat split).
      split; [left; eauto|]. split; [|left; eauto].
      right. split; [repeat split|].
      intros e He E.
      pose proof (existsb_false_forall _ _ Hk (asset_row e) (in_map _ _ _ He))
        as F.
      rewrite same_key_rows in F. simpl in E. rewrite E, key_eqb_refl in F.
      discriminate.
    + apply in_map_iff in Ha. destruct Ha as (e & <- & He).
      assert (Pe : eth_part_of e
                     (with_totals (fillna_row (right_only (asset_row e)))))
        by (repeat split).
      split; [|split; [left; eauto|right; eauto]].
      right. split; [repeat split|].
      intros b Hb E.
      pose proof (existsb_false_forall _ _ Hk (asset_row b) (in_map _ _ _ Hb))
        as F.
      simpl in F. rewrite same_key_rows in F. simpl in E.
      rewrite E, key_eqb_refl in F. discriminate.
Qed.


(* ================================================================= *)
(** * Row counts *)

Lemma merge_outer_length left right :
  List.length (merge_outer left right)
  = (List.length
       (flat_map (fun l => map (both l) (filter (same_key l) right)) left)
     + List.length (filter (fun l => negb (existsb (same_key l) right)) left)
     + List.length
         (filter (fun r => negb (existsb (fun l => same_key l r) left))
                 right))%nat.
Proof.
  rewrite (Permutation_length (merge_outer_parts left right)).
  rewrite !length_app, !length_map. lia.
Qed.

Lemma merge_outer_length_ge_left left right :
  (List.length left <= List.length (merge_outer left right))%nat.
Proof.
  rewrite merge_outer_length.
  enough (List.length left
          <= List.length
               (flat_map (fun l => map (both l) (filter (same_key l) right))
                         left)
             + List.length
                 (filter (fun l => negb (existsb (same_key l) right)) left))%nat
    by lia.
  induction left as [|l left IH]; simpl; [lia|].
  rewrite length_app, length_map, existsb_filter.
  destruct (filter (same_key l) right) as [|p ps]; simpl; lia.
Qed.

Lemma merge_outer_length_ge_right left right :
  (List.length right <= List.length (merge_outer left right))%nat.
Proof.
  rewrite <- (Permutation_length (merge_outer_swap left right)), length_map.
  apply merge_outer_length_ge_left.
Qed.

Lemma filter_same_key_unique l right :
  unique_keys (map a_key right) = true ->
  (List.length (filter (same_key l) right) <= 1)%nat.
Proof.
  induction right as [|r right IH]; simpl; [lia|].
  intros H. apply andb_prop in H. destruct H as [Hr Hu].
  specialize (IH Hu).
  destruct (same_key l r) eqn:E; [|exact IH]. simpl.
  enough (filter (same_key l) right = []) as -> by (simpl; lia).
  apply filter_nil_iff. intros x Hx.
  destruct (same_key l x) eqn:Ex; trivial.
  apply negb_true_iff in Hr.
  assert (F : existsb (key_eqb (a_key r)) (map a_key right) = true).
  { apply existsb_exists. exists (a_key x). split; [apply in_map, Hx|].
    rewrite same_key_spec in E, Ex.
    apply key_eqb_eq in E. apply key_eqb_eq in Ex.
    apply key_eqb_eq. congruence. }
  congruence.
Qed.

Lemma merge_outer_length_le left right :
  unique_keys (map a_key right) = true ->
  (List.length (merge_outer left right)
   <= List.length left + List.length right)%nat.
Proof.
  intros Hu. rewrite merge_outer_length.
  pose proof (filter_length_le
                (fun r => negb (existsb (fun l => same_key l r) left)) right).
  enough (List.length
            (flat_map (fun l => map (both l) (filter (same_key l) right)) left)
          + List.length
              (filter (fun l => negb (existsb (same_key l) right)) left)
          <= List.length left)%nat by lia.
  clear H. induction left as [|l left IH]; simpl; [lia|].
  rewrite length_app, length_map, existsb_filter.
  pose proof (filter_same_key_unique l right Hu).
  destruct (filter (same_key l) right) as [|p ps]; simpl in *; lia.
Qed.

(** X11.  The "Companies Tracked" figure agrees with the tables.  In a
    single-asset view it is the number of rows of whatever frame
    [process_treasury_data] returns for the payload: no company is dropped or
    doubled.  In the combined view it is the number of rows of the merged
    table, in whatever order [pd.merge] leaves them; it is never less than
    the number of rows of either frame, and at most their sum when no key
    repeats within the Ethereum frame. *)
Theorem companies_tracked_counts :
  (forall d coin df,
      process_treasury_data (Some d) coin (Ok df) ->
      List.length df = companies_tracked d) /\
  (forall btc_df eth_df combined m,
      Permutation combined (combined_df btc_df eth_df) ->
      combined_metrics combined = Ok m ->
      total_companies m = List.length combined /\
      (List.length btc_df <= total_companies m)%nat /\
      (List.length eth_df <= total_companies m)%nat /\
      (unique_keys (map row_key eth_df) = true ->
       (total_companies m <= List.length btc_df + List.length eth_df)%nat)).
Proof.
  split.
  - intros d coin df H. apply process_treasury_data_inv in H.
    destruct H as (df' & E & Hp & _). injection E as <-.
    rewrite <- (Permutation_length Hp).
    unfold rows_of, companies_tracked, lacks_companies, falsy_data.
    destruct d as [[cs|] th tv]; simpl.
    + destruct cs, th, tv; simpl; rewrite ?length_map; reflexivity.
    + destruct th, tv; reflexivity.
  - intros btc_df eth_df combined m Hp H.
    unfold combined_metrics in H. rewrite portfolio_pnl_pct_Ok in H.
    simpl in H. injection H as <-. simpl.
    rewrite (Permutation_length Hp).
    unfold combined_df. rewrite !length_map, !asset_columns_map.
    split; [reflexivity|].
    split; [|split].
    + rewrite <- (length_map asset_row btc_df) at 1.
      apply merge_outer_length_ge_left.
    + rewrite <- (length_map asset_row eth_df) at 1.
      apply merge_outer_length_ge_right.
    + intros Hu.
      rewrite <- (length_map asset_row btc_df), <- (length_map asset_row eth_df).
      apply merge_outer_length_le.
      rewrite map_map. exact Hu.
Qed.

Lemma companies_tracked_counts_witness :
  List.length nonneg_frame = 3%nat.
Proof.
  exact (proj1 companies_tracked_counts nonneg_payload "bitcoin" nonneg_frame
           nonneg_frame_returned).
Defined.


(* ================================================================= *)
(** * format_crypto_amount: amounts under half a coin *)

(** The formatter on sample amounts, as CPython prints them. *)
Example format_crypto_amount_samples :
  format_crypto_amount 1234567.5 "BTC" = "1,234,568 BTC" /\
  format_crypto_amount 1234568.5 "ETH" = "1,234,568 ETH" /\
  format_crypto_amount 999.5 "BTC" = "1,000 BTC" /\
  format_crypto_amount 12 "BTC" = "12 BTC" /\
  format_crypto_amount (-1234) "ETH" = "-1,234 ETH" /\
  format_crypto_amount 1e21 "BTC" = "1,000,000,000,000,000,000,000 BTC" /\
  format_crypto_amount 1234567.5 "SOL" = "1,234,567.50 SOL" /\
  format_crypto_amount (-0.375) "SOL" = "-0.38 SOL" /\
  format_crypto_amount 1.5 "BTC" = "2 BTC" /\
  format_crypto_amount 2.5 "BTC" = "2 BTC" /\
  format_crypto_amount infinity "BTC" = "inf BTC" /\
  format_crypto_amount nan "BTC" = "0" /\
  format_crypto_amount (-0) "ETH" = "0".
Proof. vm_compute. repeat split. Qed.

Lemma pos_lt_digits m : (Zpos m < 2 ^ Zpos (digits2_pos m))%Z.
Proof.
  induction m as [m IH|m IH|]; cbn [digits2_pos].
  - rewrite Pos2Z.inj_succ, Z.pow_succ_r by lia. lia.
  - rewrite Pos2Z.inj_succ, Z.pow_succ_r by lia. lia.
  - reflexivity.
Qed.

(** The mantissa of a binary64 number has at most 53 bits. *)
Lemma bounded_mantissa m e :
  bounded prec emax m e = true -> (Zpos m < 9007199254740992)%Z.
Proof.
  intros H. destruct (bounded_inv m e H) as [Hc _].
  unfold fexp in Hc.
  assert (Hd : (Zpos (digits2_pos m) <= 53)%Z)
    by (change prec with 53%Z in Hc; lia).
  pose proof (pos_lt_digits m) as Hm.
  pose proof (Z.pow_le_mono_r 2 (Zpos (digits2_pos m)) 53 eq_refl Hd) as Hp.
  change (2 ^ 53)%Z with 9007199254740992%Z in Hp.
  exact (Z.lt_le_trans _ _ _ Hm Hp).
Qed.

Lemma units_below_half m e :
  bounded prec emax m e = true ->
  SFleb (S754_finite false m e) (S754_finite false 4503599627370496 (-53))
  = true ->
  units m e = 0%Z.
Proof.
  intros Hb H. pose proof (bounded_mantissa m e Hb) as Hm.
  unfold SFleb, SFcompare in H.
  assert (He : (e < -53 \/ e = -53 /\ Zpos m <= 4503599627370496)%Z).
  { destruct (Z.compare_spec e (-53)) as [E|E|E]; try discriminate.
    - right. split; [exact E|].
      pose proof (Pos.compare_spec m 4503599627370496) as F.
      unfold Pos.compare in F. revert H.
      destruct F as [F|F|F]; intros H; try discriminate.
      + rewrite F. apply Z.le_refl.
      + apply Z.lt_le_incl. exact F.
    - left. exact E. }
  assert (Hp : (2 * Zpos m <= 2 ^ (- e))%Z).
  { destruct He as [He|[-> He]].
    - assert (H54 : (2 ^ 54 <= 2 ^ (- e))%Z)
        by (apply Z.pow_le_mono_r; lia).
      change (2 ^ 54)%Z with 18014398509481984%Z in H54.
      generalize dependent (2 ^ (- e))%Z. intros; lia.
    - change (2 ^ (- -53))%Z with 9007199254740992%Z. lia. }
  assert (H0 : (0 < 2 ^ (- e))%Z) by (apply Z.pow_pos_nonneg; lia).
  unfold units.
  destruct (Z.leb_spec 0 e) as [F|_]; [lia|].
  unfold round_half_even.
  generalize dependent (2 ^ (- e))%Z. intros d Hp H0.
  assert (Hq : (Zpos m / d = 0)%Z) by (apply Z.div_small; lia).
  assert (Hr : (Zpos m mod d = Zpos m)%Z) by (apply Z.mod_small; lia).
  rewrite Hq, Hr.
  destruct (Z.compare_spec (2 * Zpos m) d); trivial; lia.
Qed.

(** X12.  A Bitcoin or Ethereum amount that is not zero but does not exceed
    half a coin in magnitude is shown as ["0 BTC"] (["0 ETH"]), with a minus
    sign when it is negative: rounding to whole coins hides it, and only the
    unit tells it from the bare ["0"] of a zero or missing amount. *)
Theorem format_crypto_amount_below_half amount coin :
  coin = "BTC" \/ coin = "ETH" ->
  (amount =? 0) = false ->
  (abs amount <=? 0.5) = true ->
  format_crypto_amount amount coin
  = (if amount <? 0 then "-0 " else "0 ") ++ coin /\
  format_crypto_amount amount coin <> format_crypto_amount 0 coin.
Proof.
  intros Hc Hz Hle.
  assert (Hn : is_nan amount = false).
  { pose proof (leb_not_nan _ _ Hle) as [H _].
    rewrite is_nan_spec in *. rewrite abs_spec in H.
    destruct (Prim2SF amount); trivial. }
  pose proof (Prim2SF_valid amount) as Hv.
  rewrite eqb_zero_spec in Hz.
  rewrite leb_spec, abs_spec in Hle.
  change (Prim2SF 0.5) with (S754_finite false 4503599627370496 (-53)) in Hle.
  destruct (Prim2SF amount) as [s|s| |s m e] eqn:E;
    try discriminate.
  pose proof (ltb_zero_finite _ _ _ _ E) as Hs.
  simpl in Hle, Hv.
  pose proof (units_below_half m e Hv Hle) as Hu.
  assert (F : format_crypto_amount amount coin
              = (if amount <? 0 then "-0 " else "0 ") ++ coin).
  { unfold format_crypto_amount, format_comma_0f.
    rewrite Hn, E, Hu, Hs. rewrite eqb_zero_spec, E.
    destruct Hc as [-> | ->]; destruct s; reflexivity. }
  split; [exact F|]. rewrite F.
  destruct Hc as [-> | ->]; destruct (amount <? 0); discriminate.
Qed.

Lemma format_crypto_amount_below_half_witness :
  format_crypto_amount 0.25 "BTC" = "0 BTC".
Proof.
  exact (proj1 (format_crypto_amount_below_half 0.25 "BTC"
                  (or_introl eq_refl) eq_refl eq_refl)).
Defined.
